(** * Solar specific production and capacity factor estimator

    A shallow embedding of [solar_cf_tool.py]: the per-site loop that
    turns a sheet of sites into a table of yield figures, and the part of
    the presentation code that selects the data handed to the charts.

    Conventions of the embedding.

    - Numbers.  A Python / numpy float is a [float]: either a finite value,
      carried as an exact rational of [Q], or one of the special values
      [Inf] and [NaN] that an IEEE division by zero produces.  The
      binary64 rounding error of each single operation is not part of the
      model (and neither is the sign of zero); the decimal rounding that
      the script asks for with [round(x, n)] is.
    - Cells.  A cell of a sheet, an entry of a dict and an argument passed
      to an external routine is a [value].
    - Dicts are association lists, kept in insertion order, because pandas
      derives the column order of a frame from it.
    - Effects.  One execution of the script is a computation in the monad
      [M]: it threads the state [St] (the outside world, the [results]
      list, the Streamlit session and a trace of what was shown or
      requested) and either returns or raises an exception.
    - External collaborators (the PVGIS service, the pvlib geometry, the
      spreadsheet reader and writer, string formatting) are the fields of
      the class [Externals]; every statement holds for all of them. *)

From Stdlib Require Import QArith Qround Qabs ZArith List String Bool Lia Lqa.
From Stdlib Require Import Permutation Sorted.
Import ListNotations.

Local Open Scope string_scope.
Local Open Scope Q_scope.
Local Open Scope list_scope.

(** ** Floats *)

Inductive float : Type :=
| Fin (q : Q)
| Inf (positive : bool)
| NaN.

Definition Qsign_pos (q : Q) : bool := Qle_bool 0 q && negb (Qeq_bool q 0).

Definition fneg (x : float) : float :=
  match x with
  | Fin a => Fin (- a)
  | Inf s => Inf (negb s)
  | NaN => NaN
  end.

Definition fadd (x y : float) : float :=
  match x, y with
  | Fin a, Fin b => Fin (a + b)
  | Fin _, Inf s | Inf s, Fin _ => Inf s
  | Inf s, Inf t => if Bool.eqb s t then Inf s else NaN
  | _, _ => NaN
  end.

Definition fsub (x y : float) : float := fadd x (fneg y).

Definition fmul (x y : float) : float :=
  match x, y with
  | Fin a, Fin b => Fin (a * b)
  | Fin a, Inf s | Inf s, Fin a =>
      if Qeq_bool a 0 then NaN else Inf (Bool.eqb s (Qsign_pos a))
  | Inf s, Inf t => Inf (Bool.eqb s t)
  | _, _ => NaN
  end.

(** numpy's true division: dividing by zero does not raise, it yields
    [nan] for [0/0] and a signed infinity otherwise. *)
Definition fdiv (x y : float) : float :=
  match x, y with
  | Fin a, Fin b =>
      if Qeq_bool b 0
      then (if Qeq_bool a 0 then NaN else Inf (Qsign_pos a))
      else Fin (a / b)
  | Fin _, Inf _ => Fin 0
  | Inf s, Fin b => Inf (Bool.eqb s (Qle_bool 0 b))
  | _, _ => NaN
  end.

Declare Scope float_scope.
Delimit Scope float_scope with float.
Bind Scope float_scope with float.
Infix "+" := fadd : float_scope.
Infix "-" := fsub : float_scope.
Infix "*" := fmul : float_scope.
Infix "/" := fdiv : float_scope.

(** Equality of floats up to the representation of the rational. *)
Definition feq (x y : float) : Prop :=
  match x, y with
  | Fin a, Fin b => a == b
  | Inf s, Inf t => s = t
  | NaN, NaN => True
  | _, _ => False
  end.

(** Nearest integer, ties to the even one. *)
Definition rint (x : Q) : Z :=
  let f := Qfloor x in
  match ((x - inject_Z f) ?= (1 # 2))%Q with
  | Lt => f
  | Gt => (f + 1)%Z
  | Eq => if Z.even f then f else (f + 1)%Z
  end.

Definition pow10 (n : nat) : Q := inject_Z (10 ^ Z.of_nat n).

(** [round(x, ndigits)] *)
Definition round (x : float) (ndigits : nat) : float :=
  match x with
  | Fin a => Fin (inject_Z (rint (a * pow10 ndigits)) / pow10 ndigits)
  | _ => x
  end.

(** [Series.sum()] over the values that are present. *)
Definition sum (xs : list Q) : float := Fin (fold_right Qplus 0 xs).

(** ** Values, dicts and frames *)

Inductive value : Type :=
| VStr (s : string)
| VFloat (x : float)
| VNone.

Definition isna (v : value) : bool :=
  match v with
  | VNone | VFloat NaN => true
  | _ => false
  end.

Definition dict : Type := list (string * value).

Fixpoint dict_get (d : dict) (k : string) : option value :=
  match d with
  | [] => None
  | (k', v) :: d' => if String.eqb k k' then Some v else dict_get d' k
  end.

Definition keys (d : dict) : list string := map fst d.

Definition mem (k : string) (ks : list string) : bool :=
  existsb (String.eqb k) ks.

Record DataFrame : Type := mkDataFrame {
  columns : list string;
  rows : list (list value)
}.

(** The labelled row that [iterrows] hands out. *)
Definition Series : Type := (list string * list value)%type.

Fixpoint series_lookup (labels : list string) (vals : list value) (k : string)
  : option value :=
  match labels, vals with
  | l :: labels', v :: vals' =>
      if String.eqb k l then Some v else series_lookup labels' vals' k
  | l :: labels', [] =>
      if String.eqb k l then Some (VFloat NaN) else series_lookup labels' [] k
  | [], _ => None
  end.

Definition iterrows (df : DataFrame) : list Series :=
  map (fun r => (columns df, r)) (rows df).

(** Column order of [pd.DataFrame(list_of_dicts)]: the keys in the order in
    which they are first seen. *)
Fixpoint union_keys (seen : list string) (ds : list dict) : list string :=
  match ds with
  | [] => seen
  | d :: ds' =>
      union_keys
        (fold_left (fun acc k => if mem k acc then acc else acc ++ [k])
                   (keys d) seen)
        ds'
  end.

(** The cell of a dict under a column: a key that the dict lacks reads as
    [nan]. *)
Definition reindex (d : dict) (c : string) : value :=
  match dict_get d c with
  | Some v => v
  | None => VFloat NaN
  end.

Definition DataFrame_of_dicts (ds : list dict) : DataFrame :=
  let cols := union_keys [] ds in
  mkDataFrame cols (map (fun d => map (reindex d) cols) ds).

Definition len (df : DataFrame) : nat := List.length (rows df).

Fixpoint index_of (k : string) (ks : list string) : option nat :=
  match ks with
  | [] => None
  | k' :: ks' =>
      if String.eqb k k' then Some O else option_map S (index_of k ks')
  end.

Definition cell (i : nat) (r : list value) : value := nth i r (VFloat NaN).

(** ** Exceptions *)

Inductive exn : Type :=
| KeyError (key : string)
| Exception (msg : string).

Definition str_exn (e : exn) : string :=
  match e with
  | KeyError k => "'" ++ k ++ "'"
  | Exception m => m
  end.

(** [df.dropna(subset=[k])]: a label that is not a column is a [KeyError]. *)
Definition dropna (df : DataFrame) (k : string) : exn + DataFrame :=
  match index_of k (columns df) with
  | None => inl (KeyError k)
  | Some i =>
      inr (mkDataFrame (columns df)
             (filter (fun r => negb (isna (cell i r))) (rows df)))
  end.

(** [df[k]] *)
Definition column (df : DataFrame) (k : string) : exn + list value :=
  match index_of k (columns df) with
  | None => inl (KeyError k)
  | Some i => inr (map (cell i) (rows df))
  end.

(** Order on floats used for sorting; missing values go last. *)
Definition float_leb (x y : float) : bool :=
  match x, y with
  | _, NaN => true
  | NaN, _ => false
  | Fin a, Fin b => Qle_bool a b
  | Inf s, Fin _ => negb s
  | Fin _, Inf t => t
  | Inf s, Inf t => implb s t
  end.

Definition value_geb (v w : value) : bool :=
  match v, w with
  | VFloat x, VFloat y => float_leb y x
  | VFloat _, _ => true
  | _, VFloat _ => false
  | _, _ => true
  end.

Fixpoint insert_desc (i : nat) (r : list value) (rs : list (list value))
  : list (list value) :=
  match rs with
  | [] => [r]
  | r' :: rs' =>
      if value_geb (cell i r') (cell i r)
      then r' :: insert_desc i r rs'
      else r :: rs
  end.

(** [df.sort_values(k, ascending=False)] *)
Definition sort_values_desc (df : DataFrame) (k : string) : exn + DataFrame :=
  match index_of k (columns df) with
  | None => inl (KeyError k)
  | Some i =>
      inr (mkDataFrame (columns df)
             (fold_right (insert_desc i) [] (rows df)))
  end.

(** ** What the script shows and requests *)

Inductive event : Type :=
| Request (latitude longitude : value)
| StSuccess
| StError (msg : string)
| StProgress (fraction : Q)
| StDataframe (df : DataFrame)
| StDownload (df : DataFrame)
| Hist (xs : list value)
| Boxplot (xs : list value)
| Barh (height : Q) (labels widths : list value).

(** The requests of a trace, in the order in which they were sent. *)
Definition requests (tr : list event) : list (value * value) :=
  flat_map (fun ev => match ev with
                      | Request lat lon => [(lat, lon)]
                      | _ => []
                      end) tr.

Record Session : Type := mkSession {
  analysis_done : bool;
  result_df : option DataFrame
}.

(** ** External collaborators *)

Class Externals : Type := {
  World : Type;
  File : Type;
  TMY : Type;
  SolarPosition : Type;
  (** [pd.read_excel] *)
  read_excel : File -> exn + DataFrame;
  (** [pvlib.iotools.get_pvgis_tmy(...)[0]]; the answer may depend on the
      moment of the request *)
  get_pvgis_tmy : value -> value -> World -> (exn + TMY) * World;
  (** [tmy_data['ghi']], the values that are present *)
  tmy_ghi : TMY -> list Q;
  (** [pvlib.solarposition.get_solarposition(tmy_data.index, lat, lon)] *)
  get_solarposition : TMY -> value -> value -> exn + SolarPosition;
  (** [pvlib.irradiance.get_total_irradiance(...)['poa_global']], the values
      that are present; arguments: tilt, azimuth, the irradiance
      components, the solar position *)
  get_total_irradiance : Z -> Z -> TMY -> SolarPosition -> exn + list Q;
  (** how an f-string prints a cell *)
  str : value -> string
}.

(** ** The monad of one script execution *)

Section Monad.
Context {ext : Externals}.

Record St : Type := mkSt {
  world : World;
  session : Session;
  trace : list event
}.

Definition M (A : Type) : Type := St -> (exn + A) * St.

Definition ret {A} (a : A) : M A := fun s => (inr a, s).

Definition raise {A} (e : exn) : M A := fun s => (inl e, s).

Definition bind {A B} (c : M A) (k : A -> M B) : M B :=
  fun s =>
    match c s with
    | (inl e, s') => (inl e, s')
    | (inr a, s') => k a s'
    end.

Definition lift {A} (r : exn + A) : M A :=
  match r with
  | inl e => raise e
  | inr a => ret a
  end.

(** [try: body except Exception as e: handler(e)] *)
Definition try_except {A} (body : M A) (handler : exn -> M A) : M A :=
  fun s =>
    match body s with
    | (inl e, s') => handler e s'
    | (inr a, s') => (inr a, s')
    end.

Definition emit (ev : event) : M unit :=
  fun s => (inr tt, mkSt (world s) (session s) (trace s ++ [ev])).

Definition get_session : M Session := fun s => (inr (session s), s).

Definition set_session (ss : Session) : M unit :=
  fun s => (inr tt, mkSt (world s) ss (trace s)).

End Monad.

Declare Scope script_scope.
Delimit Scope script_scope with script.
Notation "x <- c ;; k" := (bind c (fun x => k))
  (at level 61, c at next level, right associativity) : script_scope.
Notation "c ;; k" := (bind c (fun _ => k))
  (at level 61, right associativity) : script_scope.

(** ** The script *)

Section Script.
Context {ext : Externals}.
Local Open Scope script_scope.

(** The request to the climate service, as the outside sees it. *)
Definition pvgis_tmy (lat lon : value) : M TMY :=
  fun s =>
    let '(r, w) := get_pvgis_tmy lat lon (world s) in
    (r, mkSt w (session s) (trace s ++ [Request lat lon])).

(** [row[k]] on a row of the sheet *)
Definition getitem (row : Series) (k : string) : M value :=
  match series_lookup (fst row) (snd row) k with
  | Some v => ret v
  | None => raise (KeyError k)
  end.

(** Lines 78-93: the figures of one site and the dict appended for it. *)
Definition success_record (name lat lon : value) (PR : Q)
    (poa_global ghi : list Q) : dict :=
  let annual_gii := (sum poa_global / Fin 1000)%float in
  let annual_ghi := (sum ghi / Fin 1000)%float in
  let specific_prod := (annual_gii * Fin PR)%float in
  let uplift := ((annual_gii / annual_ghi - Fin 1) * Fin 100)%float in
  let cf_percent := round (specific_prod / Fin 8760 * Fin 100)%float 3 in
  [ ("Site", name);
    ("Lat", lat);
    ("Long", lon);
    ("GHI (kWh/m²)", VFloat (round annual_ghi 1));
    ("GII (kWh/m²)", VFloat (round annual_gii 1));
    ("Uplift (%)", VFloat (round uplift 1));
    ("Specific Production (kWh/kWp)", VFloat (round specific_prod 1));
    ("CF (%)", VFloat cf_percent) ].

(** Lines 96-103: the dict appended for a site that failed. *)
Definition failure_record (name lat lon : value) : dict :=
  [ ("Site", name);
    ("Lat", lat);
    ("Long", lon);
    ("GII (kWh/m²)", VNone);
    ("Specific Production (kWh/kWp)", VNone);
    ("CF (%)", VNone) ].

(** Lines 55-93, the body of [try]. *)
Definition estimate (tilt_angle : Z) (PR : Q) (name lat lon : value)
  : M dict :=
  tmy_data <- pvgis_tmy lat lon ;;
  solar_pos <- lift (get_solarposition tmy_data lat lon) ;;
  poa_global <- lift (get_total_irradiance tilt_angle 180 tmy_data solar_pos) ;;
  ret (success_record name lat lon PR poa_global (tmy_ghi tmy_data)).

Definition failure_message (name : value) (e : exn) : string :=
  ("❌ Failed for " ++ str name ++ ": " ++ str_exn e)%string.

(** [(idx + 1) / len(site_df)] *)
Definition fraction (idx total : nat) : Q :=
  inject_Z (Z.of_nat (idx + 1)) / inject_Z (Z.of_nat total).

(** [progress_bar.progress(v)] refuses a value outside [0.0, 1.0]. *)
Definition progress (v : Q) : M unit :=
  if Qle_bool 0 v && Qle_bool v 1
  then emit (StProgress v)
  else raise (Exception "Progress Value has invalid value [0.0, 1.0]").

(** Lines 51-108: one turn of the loop. *)
Definition site_body (tilt_angle : Z) (PR : Q) (total : nat)
    (results : list dict) (idx : nat) (row : Series) : M (list dict) :=
  name <- getitem row "name" ;;
  lat <- getitem row "Lat" ;;
  lon <- getitem row "Long" ;;
  results <- try_except
    (d <- estimate tilt_angle PR name lat lon ;;
     ret (results ++ [d]))
    (fun e =>
       let results := results ++ [failure_record name lat lon] in
       emit (StError (failure_message name e)) ;;
       ret results) ;;
  progress (fraction idx total) ;;
  ret results.

(** Lines 50-108: [for idx, row in site_df.iterrows()]. *)
Fixpoint site_loop (tilt_angle : Z) (PR : Q) (total : nat)
    (results : list dict) (idx : nat) (rows : list Series)
  : M (list dict) :=
  match rows with
  | [] => ret results
  | row :: rows' =>
      results <- site_body tilt_angle PR total results idx row ;;
      site_loop tilt_angle PR total results (S idx) rows'
  end.

(** What a turn comes to on a row that has the three columns (see
    [site_body_turn]). *)
Definition turn (tilt_angle : Z) (PR : Q) (total : nat) (results : list dict)
    (idx : nat) (name lat lon : value) (s : St) : (exn + list dict) * St :=
  match estimate tilt_angle PR name lat lon s with
  | (inr d, s1) =>
      (inr (results ++ [d]),
       mkSt (world s1) (session s1)
            (trace s1 ++ [StProgress (fraction idx total)]))
  | (inl e, s1) =>
      (inr (results ++ [failure_record name lat lon]),
       mkSt (world s1) (session s1)
            ((trace s1 ++ [StError (failure_message name e)])
               ++ [StProgress (fraction idx total)]))
  end.

(** Lines 44-118: what the button [Run Analysis] starts. *)
Definition run_analysis (tilt_angle : Z) (PR : Q) (site_df : DataFrame)
  : M unit :=
  ss <- get_session ;;
  set_session (mkSession false (result_df ss)) ;;
  emit (StProgress 0) ;;
  results <- site_loop tilt_angle PR (len site_df) [] 0 (iterrows site_df) ;;
  let result_df := DataFrame_of_dicts results in
  set_session (mkSession false (Some result_df)) ;;
  set_session (mkSession true (Some result_df)) ;;
  emit StSuccess ;;
  emit (StDataframe result_df).

(** Lines 121-168: table, download and the three charts.  The map that
    follows (lines 170-204) is not part of the model. *)
Definition presentation (result_df : DataFrame) : M unit :=
  emit (StDataframe result_df) ;;
  emit (StDownload result_df) ;;
  valid_df <- lift (dropna result_df "CF (%)") ;;
  cf_values <- lift (column valid_df "CF (%)") ;;
  emit (Hist cf_values) ;;
  emit (Boxplot cf_values) ;;
  sorted_cf_df <- lift (sort_values_desc valid_df "CF (%)") ;;
  sites <- lift (column sorted_cf_df "Site") ;;
  widths <- lift (column sorted_cf_df "CF (%)") ;;
  emit (Barh (inject_Z (Z.of_nat (len valid_df)) * (4 # 10)) sites widths).

(** One execution of the whole script. *)
Definition script (uploaded_file : option File) (run_button : bool)
    (tilt_angle : Z) (PR : Q) : M unit :=
  match uploaded_file with
  | Some f =>
      site_df <- lift (read_excel f) ;;
      emit StSuccess ;;
      if run_button then run_analysis tilt_angle PR site_df else ret tt
  | None => ret tt
  end ;;
  ss <- get_session ;;
  match analysis_done ss, result_df ss with
  | true, Some df => presentation df
  | _, _ => ret tt
  end.

End Script.

(** ** The figures in the words of the specification *)

Definition annual_GHI (ghi : list Q) : Q := fold_right Qplus 0 ghi / 1000.

Definition annual_GII (poa : list Q) : Q := fold_right Qplus 0 poa / 1000.

Definition specific_production (poa : list Q) (PR : Q) : Q :=
  annual_GII poa * PR.

Definition uplift_pct (poa ghi : list Q) : Q :=
  (annual_GII poa / annual_GHI ghi - 1) * 100.

Definition capacity_factor_pct (poa : list Q) (PR : Q) : Q :=
  specific_production poa PR / 8760 * 100.

(** [y] is [x] rounded to [n] decimal places: a multiple of [10^-n] at
    distance at most half a unit of the last place. *)
Definition nearest_decimal (n : nat) (x y : Q) : Prop :=
  (exists k : Z, y == inject_Z k / pow10 n) /\
  Qabs (y - x) <= 1 / (2 * pow10 n).

(** The entry [k] of a record holds the finite number [q]. *)
Definition holds (d : dict) (k : string) (q : Q) : Prop :=
  exists y, dict_get d k = Some (VFloat (Fin y)) /\ y == q.

(** The entry [k] of a record holds [x] rounded to [n] decimal places. *)
Definition holds_rounded (d : dict) (k : string) (n : nat) (x : Q) : Prop :=
  exists y, dict_get d k = Some (VFloat (Fin y)) /\ nearest_decimal n x y.

(** The entry [k] of a record is null in the table: it is [None] or [nan],
    or the record lacks the key and pandas fills the cell with [nan]. *)
Definition null_entry (d : dict) (k : string) : Prop :=
  isna (reindex d k) = true.

Definition numeric_columns : list string :=
  [ "GHI (kWh/m²)"; "GII (kWh/m²)"; "Uplift (%)";
    "Specific Production (kWh/kWp)"; "CF (%)" ].

Definition identity_columns : list string := [ "Site"; "Lat"; "Long" ].

(** A record carries an error description when some entry other than the
    identity of the site holds a non-empty text. *)
Definition has_error_description (d : dict) : Prop :=
  exists k msg,
    ~ In k identity_columns /\ dict_get d k = Some (VStr msg) /\ msg <> "".

(** The identity of the row of the sheet is what the record says. *)
Definition same_identity (row : Series) (d : dict) : Prop :=
  series_lookup (fst row) (snd row) "name" = dict_get d "Site" /\
  series_lookup (fst row) (snd row) "Lat" = dict_get d "Lat" /\
  series_lookup (fst row) (snd row) "Long" = dict_get d "Long" /\
  dict_get d "Site" <> None /\ dict_get d "Lat" <> None /\
  dict_get d "Long" <> None.

Definition has_columns (df : DataFrame) : Prop :=
  In "name" (columns df) /\ In "Lat" (columns df) /\ In "Long" (columns df).

(** A record of the shape appended for a failed site. *)
Definition failed (d : dict) : Prop :=
  exists name lat lon, d = failure_record name lat lon.

Definition failure_columns : list string :=
  [ "Site"; "Lat"; "Long"; "GII (kWh/m²)";
    "Specific Production (kWh/kWp)"; "CF (%)" ].

(** The rows that [dropna] keeps, given the position of the column. *)
Definition valid_rows (i : nat) (df : DataFrame) : list (list value) :=
  filter (fun r => negb (isna (cell i r))) (rows df).



(** ** A stand-in for the collaborators, to run the script on examples *)

Definition service : Type := value -> value -> exn + (list Q * list Q).

Definition stub (srv : service) : Externals := {|
  World := nat;
  File := DataFrame;
  TMY := (list Q * list Q)%type;
  SolarPosition := unit;
  read_excel := fun f => inr f;
  get_pvgis_tmy := fun lat lon w => (srv lat lon, S w);
  tmy_ghi := fst;
  get_solarposition := fun _ _ _ => inr tt;
  get_total_irradiance := fun _ _ tmy _ => inr (snd tmy);
  str := fun v => match v with VStr s => s | _ => "?" end
|}.

(** A service that answers with the given series inside the latitudes
    -90..90 and refuses every other request. *)
Definition covered (ghi poa : list Q) : service :=
  fun lat lon =>
    match lat with
    | VFloat (Fin a) =>
        if Qle_bool (- (90)) a && Qle_bool a 90
        then inr (ghi, poa)
        else inl (Exception "latitude out of range")
    | _ => inl (Exception "latitude is not a number")
    end.

Definition ghi_1500 : list Q := [0; 420000; 640000; 440000; 0].

Definition poa_1700 : list Q := [0; 480000; 730000; 490000; 0].

Definition poa_1700_04 : list Q := [0; 480000; 730040; 490000; 0].

Definition ispra : list value :=
  [VStr "Ispra"; VFloat (Fin (458 # 10)); VFloat (Fin (86 # 10))].

Definition nowhere : list value :=
  [VStr "Nowhere"; VFloat (Fin 95); VFloat (Fin 0)].

Definition sheet : DataFrame :=
  mkDataFrame ["name"; "Lat"; "Long"] [ispra; nowhere].

Definition sheet_failing_first : DataFrame :=
  mkDataFrame ["name"; "Lat"; "Long"] [nowhere; ispra].

Definition empty_sheet : DataFrame :=
  mkDataFrame ["name"; "Lat"; "Long"] [].


Definition sheet_with_lat_only : DataFrame :=
  mkDataFrame ["Lat"] [[VFloat (Fin (458 # 10))]].

Definition sheet_without_long : DataFrame :=
  mkDataFrame ["name"; "Lat"] [[VStr "Ispra"; VFloat (Fin (458 # 10))]].

Definition start (ext : Externals) (w : World) : St :=
  mkSt w (mkSession false None) [].

(** ** Reading a trace, a sheet and a list of records *)

(** The messages of [st.error], in the order in which they were shown. *)
Definition errors (tr : list event) : list string :=
  flat_map (fun ev => match ev with
                      | StError msg => [msg]
                      | _ => []
                      end) tr.

(** The values given to the progress bar, in order. *)
Definition progresses (tr : list event) : list Q :=
  flat_map (fun ev => match ev with
                      | StProgress v => [v]
                      | _ => []
                      end) tr.

(** [row[k]], for a label that the row has. *)
Definition series_get (row : Series) (k : string) : value :=
  match series_lookup (fst row) (snd row) k with
  | Some v => v
  | None => VFloat NaN
  end.

Definition coordinates (row : Series) : value * value :=
  (series_get row "Lat", series_get row "Long").

(** A record whose capacity factor is not null, which is what [dropna]
    keeps. *)
Definition is_valid (d : dict) : bool := negb (isna (reindex d "CF (%)")).

(** The record that a turn of the loop can append for a row. *)
Definition outcome (PR : Q) (row : Series) (d : dict) : Prop :=
  d = failure_record (series_get row "name") (series_get row "Lat")
        (series_get row "Long") \/
  exists poa ghi,
    d = success_record (series_get row "name") (series_get row "Lat")
          (series_get row "Long") PR poa ghi.

(** A record of one of the two shapes that the loop appends. *)
Definition produced (d : dict) : Prop :=
  failed d \/
  exists name lat lon PR poa ghi, d = success_record name lat lon PR poa ghi.

Definition success_columns : list string :=
  [ "Site"; "Lat"; "Long"; "GHI (kWh/m²)"; "GII (kWh/m²)"; "Uplift (%)";
    "Specific Production (kWh/kWp)"; "CF (%)" ].

(** The columns of a table whose first record is a failure and which has a
    success further down. *)
Definition mixed_columns : list string :=
  failure_columns ++ [ "GHI (kWh/m²)"; "Uplift (%)" ].


(** The row of the table made from a record. *)
Definition table_row (cols : list string) (d : dict) : list value :=
  map (reindex d) cols.

(** Descending order of two cells, as [sort_values_desc] compares them. *)
Definition cell_geb (i : nat) (r r' : list value) : bool :=
  value_geb (cell i r) (cell i r').

(** The cell holds a finite number. *)
Definition finite_cell (i : nat) (r : list value) : Prop :=
  exists q, cell i r = VFloat (Fin q).

(** Two rows in descending order of the finite numbers in cell [i]. *)
Definition cf_desc (i : nat) (r r' : list value) : Prop :=
  exists a b, cell i r = VFloat (Fin a) /\ cell i r' = VFloat (Fin b) /\ b <= a.

Definition cf_of (d : dict) : value := reindex d "CF (%)".

Definition site_of (d : dict) : value := reindex d "Site".

(** The first record has a capacity factor at least as large as the
    second. *)
Definition ranks_before (d d' : dict) : Prop :=
  exists a b, cf_of d = VFloat (Fin a) /\ cf_of d' = VFloat (Fin b) /\ b <= a.

(** The finite value of [round]. *)
Definition roundQ (a : Q) (n : nat) : Q :=
  inject_Z (rint (a * pow10 n)) / pow10 n.

(** * Properties *)

(** ** Rounding *)

Lemma pow10_pos (n : nat) : 0 < pow10 n.
Proof.
  unfold pow10. change 0 with (inject_Z 0). rewrite <- Zlt_Qlt.
  apply Z.pow_pos_nonneg; lia.
Qed.

Lemma rint_near (x : Q) :
  inject_Z (rint x) - x <= 1 # 2 /\ x - inject_Z (rint x) <= 1 # 2.
Proof.
  unfold rint.
  pose proof (Qfloor_le x) as Hlo.
  pose proof (Qlt_floor x) as Hhi.
  rewrite inject_Z_plus in Hhi. change (inject_Z 1) with 1 in Hhi.
  destruct (Qcompare_spec (x - inject_Z (Qfloor x)) (1 # 2)) as [He | Hl | Hg].
  - destruct (Z.even (Qfloor x)).
    + split; lra.
    + rewrite inject_Z_plus. change (inject_Z 1) with 1. split; lra.
  - split; lra.
  - rewrite inject_Z_plus. change (inject_Z 1) with 1. split; lra.
Qed.

Lemma rint_ge (x : Q) (k : Z) : inject_Z k <= x -> (k <= rint x)%Z.
Proof.
  intros H.
  assert (Hf : (k <= Qfloor x)%Z).
  { rewrite <- (Qfloor_Z k). now apply Qfloor_resp_le. }
  unfold rint.
  destruct (_ ?= _); [destruct (Z.even _) | |]; lia.
Qed.

Lemma rint_le (x : Q) (k : Z) : x <= inject_Z k -> (rint x <= k)%Z.
Proof.
  intros H.
  assert (Hf : (Qfloor x <= k)%Z).
  { rewrite <- (Qfloor_Z k). now apply Qfloor_resp_le. }
  assert (Hup : 0 < x - inject_Z (Qfloor x) -> (Qfloor x + 1 <= k)%Z).
  { intros Hpos.
    assert (Hlt : inject_Z (Qfloor x) < inject_Z k) by lra.
    rewrite <- Zlt_Qlt in Hlt. lia. }
  unfold rint.
  destruct (Qcompare_spec (x - inject_Z (Qfloor x)) (1 # 2)) as [He | Hl | Hg].
  - destruct (Z.even (Qfloor x)); [exact Hf | apply Hup; lra].
  - exact Hf.
  - apply Hup; lra.
Qed.

Lemma rint_comp (x y : Q) : x == y -> rint x = rint y.
Proof.
  intros H. unfold rint.
  rewrite (Qfloor_comp _ _ H).
  assert (Hc : (x - inject_Z (Qfloor y) ?= 1 # 2) =
               (y - inject_Z (Qfloor y) ?= 1 # 2)).
  { apply Qcompare_comp; [now rewrite H | reflexivity]. }
  now rewrite Hc.
Qed.

Lemma round_nearest (n : nat) (a : Q) :
  nearest_decimal n a (inject_Z (rint (a * pow10 n)) / pow10 n).
Proof.
  pose proof (pow10_pos n) as Hp.
  split.
  - now exists (rint (a * pow10 n)).
  - destruct (rint_near (a * pow10 n)) as [H1 H2].
    assert (E : inject_Z (rint (a * pow10 n)) / pow10 n - a ==
                (inject_Z (rint (a * pow10 n)) - a * pow10 n) / pow10 n).
    { field. lra. }
    rewrite E. clear E.
    assert (Hd : Qabs (inject_Z (rint (a * pow10 n)) - a * pow10 n) <= 1 # 2)
      by (apply Qabs_Qle_condition; split; lra).
    unfold Qdiv. rewrite Qabs_Qmult.
    rewrite (Qabs_pos (/ pow10 n)) by (apply Qlt_le_weak, Qinv_lt_0_compat, Hp).
    assert (E : 1 * / (2 * pow10 n) == (1 # 2) * / pow10 n) by (field; lra).
    rewrite E.
    apply Qmult_le_compat_r; [exact Hd |].
    apply Qlt_le_weak, Qinv_lt_0_compat, Hp.
Qed.

(** ** The estimator of one site *)

Section Estimator.
Context {ext : Externals}.

(** Whatever the outcome, the body of [try] sends one request. *)
Lemma estimate_state tilt PR name lat lon s :
  snd (estimate tilt PR name lat lon s) =
  mkSt (snd (get_pvgis_tmy lat lon (world s))) (session s)
       (trace s ++ [Request lat lon]).
Proof.
  unfold estimate, bind, pvgis_tmy.
  destruct (get_pvgis_tmy lat lon (world s)) as [[e | tmy] w]; cbn; [reflexivity |].
  destruct (get_solarposition tmy lat lon) as [e | sp]; cbn; [reflexivity |].
  destruct (get_total_irradiance tilt 180 tmy sp) as [e | poa]; reflexivity.
Qed.

Lemma estimate_success tilt PR name lat lon s tmy w sp poa :
  get_pvgis_tmy lat lon (world s) = (inr tmy, w) ->
  get_solarposition tmy lat lon = inr sp ->
  get_total_irradiance tilt 180 tmy sp = inr poa ->
  estimate tilt PR name lat lon s =
  (inr (success_record name lat lon PR poa (tmy_ghi tmy)),
   mkSt w (session s) (trace s ++ [Request lat lon])).
Proof.
  intros H1 H2 H3. unfold estimate, bind, pvgis_tmy.
  rewrite H1. cbn. rewrite H2. cbn. rewrite H3. reflexivity.
Qed.

End Estimator.

Lemma success_record_entries name lat lon PR poa ghi :
  let d := success_record name lat lon PR poa ghi in
  dict_get d "Site" = Some name /\
  dict_get d "Lat" = Some lat /\
  dict_get d "Long" = Some lon /\
  dict_get d "GHI (kWh/m²)" = Some (VFloat (round (Fin (annual_GHI ghi)) 1)) /\
  dict_get d "GII (kWh/m²)" = Some (VFloat (round (Fin (annual_GII poa)) 1)) /\
  dict_get d "Uplift (%)" =
    Some (VFloat (round ((Fin (annual_GII poa) / Fin (annual_GHI ghi)
                          - Fin 1) * Fin 100)%float 1)) /\
  dict_get d "Specific Production (kWh/kWp)" =
    Some (VFloat (round (Fin (specific_production poa PR)) 1)) /\
  dict_get d "CF (%)" =
    Some (VFloat (round (Fin (capacity_factor_pct poa PR)) 3)).
Proof.
  repeat split; reflexivity.
Qed.

Lemma holds_rounded_round (d : dict) (k : string) (n : nat) (x : Q) :
  dict_get d k = Some (VFloat (round (Fin x) n)) -> holds_rounded d k n x.
Proof.
  intros H. eexists. split; [exact H | apply round_nearest].
Qed.

Lemma uplift_finite (gii ghi : Q) :
  ~ ghi == 0 ->
  ((Fin gii / Fin ghi - Fin 1) * Fin 100)%float =
  Fin ((gii / ghi - 1) * 100).
Proof.
  intros H. unfold fdiv.
  destruct (Qeq_bool ghi 0) eqn:E; [| reflexivity].
  apply Qeq_bool_iff in E. contradiction.
Qed.

(** C3. For a site whose retrieval and geometry succeed, the record that
    the estimator produces holds the annual sums divided by 1000, the
    specific production [annual_GII * PR] and the uplift
    [((annual_GII / annual_GHI) - 1) * 100], each rounded to one decimal
    place, and the capacity factor [(specific_production / 8760) * 100]
    rounded to three decimal places. *)
Theorem successful_site_figures
    {ext : Externals} tilt PR name lat lon s tmy w sp poa :
  get_pvgis_tmy lat lon (world s) = (inr tmy, w) ->
  get_solarposition tmy lat lon = inr sp ->
  get_total_irradiance tilt 180 tmy sp = inr poa ->
  exists d s',
    estimate tilt PR name lat lon s = (inr d, s') /\
    holds_rounded d "GHI (kWh/m²)" 1 (annual_GHI (tmy_ghi tmy)) /\
    holds_rounded d "GII (kWh/m²)" 1 (annual_GII poa) /\
    holds_rounded d "Specific Production (kWh/kWp)" 1
      (specific_production poa PR) /\
    holds_rounded d "CF (%)" 3 (capacity_factor_pct poa PR) /\
    (~ annual_GHI (tmy_ghi tmy) == 0 ->
     holds_rounded d "Uplift (%)" 1 (uplift_pct poa (tmy_ghi tmy))).
Proof.
  intros H1 H2 H3.
  eexists. eexists. split.
  { apply (estimate_success _ _ _ _ _ _ _ _ _ _ H1 H2 H3). }
  destruct (success_record_entries name lat lon PR poa (tmy_ghi tmy))
    as (_ & _ & _ & Hg & Hi & Hu & Hp & Hc).
  repeat split; try (now apply holds_rounded_round).
  intros Hnz. apply holds_rounded_round.
  rewrite Hu. now rewrite uplift_finite.
Qed.

Lemma successful_site_figures_witness :
  exists d s',
    @estimate (stub (covered ghi_1500 poa_1700)) 20 (85 # 100)
      (VStr "Ispra") (VFloat (Fin (458 # 10))) (VFloat (Fin (86 # 10)))
      (start (stub (covered ghi_1500 poa_1700)) O) = (inr d, s') /\
    holds_rounded d "CF (%)" 3 (capacity_factor_pct poa_1700 (85 # 100)) /\
    holds_rounded d "Uplift (%)" 1 (uplift_pct poa_1700 ghi_1500).
Proof.
  destruct (@successful_site_figures (stub (covered ghi_1500 poa_1700))
              20 (85 # 100) (VStr "Ispra") (VFloat (Fin (458 # 10)))
              (VFloat (Fin (86 # 10)))
              (start (stub (covered ghi_1500 poa_1700)) O)
              (ghi_1500, poa_1700) 1%nat tt poa_1700
              eq_refl eq_refl eq_refl)
    as (d & s' & He & _ & _ & _ & Hc & Hu).
  exists d, s'. split; [exact He | split; [exact Hc |]].
  apply Hu. vm_compute. discriminate.
Defined.

(** With an annual GHI of zero the division does not raise: the uplift of
    the record is [nan] or an infinity. *)
Lemma uplift_without_sun name lat lon PR poa ghi :
  annual_GHI ghi == 0 ->
  exists x,
    dict_get (success_record name lat lon PR poa ghi) "Uplift (%)" =
    Some (VFloat x) /\
    forall q, x <> Fin q.
Proof.
  intros H0.
  destruct (success_record_entries name lat lon PR poa ghi)
    as (_ & _ & _ & _ & _ & Hu & _).
  eexists. split; [exact Hu |].
  unfold fdiv. apply Qeq_bool_iff in H0. rewrite H0.
  destruct (Qeq_bool (annual_GII poa) 0); cbn; [discriminate |].
  destruct (Bool.eqb _ _); discriminate.
Qed.

(** The capacity factor tells the two kinds of record apart. *)
Lemma success_record_valid name lat lon PR poa ghi :
  exists v,
    dict_get (success_record name lat lon PR poa ghi) "CF (%)" = Some v /\
    isna v = false.
Proof.
  eexists. split; reflexivity.
Qed.

Lemma failure_record_not_valid name lat lon :
  exists v,
    dict_get (failure_record name lat lon) "CF (%)" = Some v /\
    isna v = true.
Proof.
  eexists. split; reflexivity.
Qed.

Lemma round_comp (n : nat) (a b : Q) :
  a == b -> round (Fin a) n = round (Fin b) n.
Proof.
  intros H. unfold round.
  rewrite (rint_comp (a * pow10 n) (b * pow10 n)); [reflexivity |].
  now rewrite H.
Qed.

Lemma holds_round (d : dict) (k : string) (n : nat) (a b q : Q) :
  dict_get d k = Some (VFloat (round (Fin a) n)) ->
  a == b ->
  feq (round (Fin b) n) (Fin q) ->
  holds d k q.
Proof.
  intros H E F. rewrite (round_comp n a b E) in H.
  unfold round in *. eexists. split; [exact H | exact F].
Qed.

(** C4, amended.  With tilt 20, PR 0.85 and series whose sums give an annual
    GHI of 1500 and an annual GII of 1700, the record holds a specific
    production of 1445.0, an uplift of 13.3 and a capacity factor of
    16.495. *)
Theorem reference_case
    {ext : Externals} name lat lon s tmy w sp poa :
  get_pvgis_tmy lat lon (world s) = (inr tmy, w) ->
  get_solarposition tmy lat lon = inr sp ->
  get_total_irradiance 20 180 tmy sp = inr poa ->
  annual_GHI (tmy_ghi tmy) == 1500 ->
  annual_GII poa == 1700 ->
  exists d s',
    estimate 20 (85 # 100) name lat lon s = (inr d, s') /\
    holds d "Specific Production (kWh/kWp)" 1445 /\
    holds d "CF (%)" (16495 # 1000) /\
    holds d "Uplift (%)" (133 # 10).
Proof.
  intros H1 H2 H3 Hg Hi.
  eexists. eexists. split.
  { apply (estimate_success _ _ _ _ _ _ _ _ _ _ H1 H2 H3). }
  destruct (success_record_entries name lat lon (85 # 100) poa (tmy_ghi tmy))
    as (_ & _ & _ & _ & _ & Hu & Hp & Hc).
  assert (Hnz : ~ annual_GHI (tmy_ghi tmy) == 0) by (rewrite Hg; discriminate).
  rewrite uplift_finite in Hu by exact Hnz.
  repeat split.
  - apply (holds_round _ _ 1 _ (1700 * (85 # 100)) _ Hp).
    + unfold specific_production. now rewrite Hi.
    + reflexivity.
  - apply (holds_round _ _ 3 _ (1700 * (85 # 100) / 8760 * 100) _ Hc).
    + unfold capacity_factor_pct, specific_production. now rewrite Hi.
    + reflexivity.
  - apply (holds_round _ _ 1 _ ((1700 / 1500 - 1) * 100) _ Hu).
    + now rewrite Hg, Hi.
    + reflexivity.
Qed.

Lemma reference_case_witness :
  exists d s',
    @estimate (stub (covered ghi_1500 poa_1700)) 20 (85 # 100)
      (VStr "Ispra") (VFloat (Fin (458 # 10))) (VFloat (Fin (86 # 10)))
      (start (stub (covered ghi_1500 poa_1700)) O) = (inr d, s') /\
    holds d "Specific Production (kWh/kWp)" 1445 /\
    holds d "CF (%)" (16495 # 1000) /\
    holds d "Uplift (%)" (133 # 10).
Proof.
  apply (@reference_case (stub (covered ghi_1500 poa_1700))
           (VStr "Ispra") (VFloat (Fin (458 # 10))) (VFloat (Fin (86 # 10)))
           (start (stub (covered ghi_1500 poa_1700)) O)
           (ghi_1500, poa_1700) 1%nat tt poa_1700);
    reflexivity.
Defined.

(** C4 as the specification words it fails: on series that sum to an annual
    GHI of 1500 and an annual GII of 1700, with tilt 20 and PR 0.85, the
    capacity factor of the record is not 16.496. *)
Lemma reference_case_cf_is_not_16_496 :
  annual_GHI ghi_1500 == 1500 /\
  annual_GII poa_1700 == 1700 /\
  exists d s',
    @estimate (stub (covered ghi_1500 poa_1700)) 20 (85 # 100)
      (VStr "Ispra") (VFloat (Fin (458 # 10))) (VFloat (Fin (86 # 10)))
      (start (stub (covered ghi_1500 poa_1700)) O) = (inr d, s') /\
    ~ holds d "CF (%)" (16496 # 1000).
Proof.
  split; [reflexivity | split; [reflexivity |]].
  eexists. eexists. split; [reflexivity |].
  intros (y & Hy & E).
  vm_compute in Hy. injection Hy as <-.
  vm_compute in E. discriminate.
Qed.

Lemma sum_nonneg (xs : list Q) :
  Forall (fun x => 0 <= x) xs -> 0 <= fold_right Qplus 0 xs.
Proof.
  induction 1 as [| x xs Hx _ IH]; cbn [fold_right]; lra.
Qed.

Lemma round3_range (x : Q) :
  0 <= x <= 100 ->
  0 <= inject_Z (rint (x * pow10 3)) / pow10 3 <= 100.
Proof.
  intros [Hlo Hhi].
  change (pow10 3) with (inject_Z 1000).
  assert (H0 : (0 <= rint (x * inject_Z 1000))%Z).
  { apply rint_ge. change (inject_Z 0) with 0. change (inject_Z 1000) with 1000. lra. }
  assert (H1 : (rint (x * inject_Z 1000) <= 100000)%Z).
  { apply rint_le. change (inject_Z 100000) with 100000.
    change (inject_Z 1000) with 1000. lra. }
  rewrite Zle_Qle in H0, H1.
  change (inject_Z 0) with 0 in H0. change (inject_Z 100000) with 100000 in H1.
  change (inject_Z 1000) with 1000 at 2 4.
  split.
  - apply Qle_shift_div_l; lra.
  - apply Qle_shift_div_r; lra.
Qed.

(** C7. For a successful site with non-negative hourly plane-of-array
    irradiance, a performance ratio between 0 and 1 and a specific
    production of at most 8760, the capacity factor of the record lies
    between 0 and 100. *)
Theorem capacity_factor_in_range
    {ext : Externals} tilt PR name lat lon s tmy w sp poa :
  get_pvgis_tmy lat lon (world s) = (inr tmy, w) ->
  get_solarposition tmy lat lon = inr sp ->
  get_total_irradiance tilt 180 tmy sp = inr poa ->
  Forall (fun x => 0 <= x) poa ->
  0 <= PR <= 1 ->
  specific_production poa PR <= 8760 ->
  exists d s' cf,
    estimate tilt PR name lat lon s = (inr d, s') /\
    dict_get d "CF (%)" = Some (VFloat (Fin cf)) /\
    0 <= cf <= 100.
Proof.
  intros H1 H2 H3 Hpos [HPR0 HPR1] Hsp.
  eexists. eexists. eexists. split.
  { apply (estimate_success _ _ _ _ _ _ _ _ _ _ H1 H2 H3). }
  split; [reflexivity |].
  apply round3_range.
  change (0 <= capacity_factor_pct poa PR <= 100).
  pose proof (sum_nonneg poa Hpos) as Hs.
  assert (Hsp0 : 0 <= specific_production poa PR).
  { unfold specific_production, annual_GII.
    apply Qmult_le_0_compat; [| exact HPR0].
    apply Qle_shift_div_l; lra. }
  unfold capacity_factor_pct.
  assert (Hlo : 0 <= specific_production poa PR / 8760)
    by (apply Qle_shift_div_l; lra).
  assert (Hhi : specific_production poa PR / 8760 <= 1)
    by (apply Qle_shift_div_r; lra).
  split; lra.
Qed.

Lemma capacity_factor_in_range_witness :
  exists d s' cf,
    @estimate (stub (covered ghi_1500 poa_1700)) 20 (85 # 100)
      (VStr "Ispra") (VFloat (Fin (458 # 10))) (VFloat (Fin (86 # 10)))
      (start (stub (covered ghi_1500 poa_1700)) O) = (inr d, s') /\
    dict_get d "CF (%)" = Some (VFloat (Fin cf)) /\
    0 <= cf <= 100.
Proof.
  apply (@capacity_factor_in_range (stub (covered ghi_1500 poa_1700))
           20 (85 # 100) (VStr "Ispra") (VFloat (Fin (458 # 10)))
           (VFloat (Fin (86 # 10)))
           (start (stub (covered ghi_1500 poa_1700)) O)
           (ghi_1500, poa_1700) 1%nat tt poa_1700);
    try reflexivity.
  - repeat constructor; discriminate.
  - split; discriminate.
  - discriminate.
Defined.

(** Where the bound on the specific production comes from: a year of at
    most 8760 hours, none above 1000 Wh/m2, and a performance ratio of at
    most 1. *)
Lemma sum_le_hours (xs : list Q) :
  Forall (fun x => 0 <= x <= 1000) xs ->
  fold_right Qplus 0 xs <= 1000 * inject_Z (Z.of_nat (List.length xs)).
Proof.
  induction 1 as [| x xs [_ Hx] _ IH].
  - cbn [fold_right List.length]. change (inject_Z (Z.of_nat 0)) with 0. lra.
  - cbn [fold_right List.length]. rewrite Nat2Z.inj_succ, <- Z.add_1_r.
    rewrite inject_Z_plus. change (inject_Z 1) with 1. lra.
Qed.

Lemma physical_production_bound (poa : list Q) (PR : Q) :
  Forall (fun x => 0 <= x <= 1000) poa ->
  (Z.of_nat (List.length poa) <= 8760)%Z ->
  0 <= PR <= 1 ->
  specific_production poa PR <= 8760.
Proof.
  intros Hpoa Hlen [HPR0 HPR1].
  pose proof (sum_le_hours poa Hpoa) as Hsum.
  assert (Hn : inject_Z (Z.of_nat (List.length poa)) <= 8760).
  { change 8760 with (inject_Z 8760). now rewrite <- Zle_Qle. }
  assert (Hpos : 0 <= fold_right Qplus 0 poa).
  { apply sum_nonneg. eapply Forall_impl; [| exact Hpoa].
    now intros x [H _]. }
  unfold specific_production, annual_GII.
  assert (Hgii : fold_right Qplus 0 poa / 1000 <= 8760)
    by (apply Qle_shift_div_r; lra).
  assert (Hgii0 : 0 <= fold_right Qplus 0 poa / 1000)
    by (apply Qle_shift_div_l; lra).
  apply Qle_trans with (fold_right Qplus 0 poa / 1000 * 1); [| lra].
  apply Qmult_le_compat_nonneg; split; lra.
Qed.

(** C10. The capacity factor of a record is the rounding of
    [(annual_GII * PR / 8760) * 100], with the specific production not yet
    rounded; and there are series for which the capacity factor recomputed
    from the exported specific production, already rounded to one decimal
    place, is a different number. *)
Theorem cf_uses_unrounded_production :
  (forall name lat lon PR poa ghi,
      dict_get (success_record name lat lon PR poa ghi) "CF (%)" =
      Some (VFloat (round (Fin (annual_GII poa * PR / 8760 * 100)) 3))) /\
  (exists PR poa ghi production cf,
      let d := success_record VNone VNone VNone PR poa ghi in
      dict_get d "Specific Production (kWh/kWp)" = Some (VFloat production) /\
      dict_get d "CF (%)" = Some (VFloat cf) /\
      ~ feq (round (production / Fin 8760 * Fin 100)%float 3) cf).
Proof.
  split.
  - intros. reflexivity.
  - exists (85 # 100), poa_1700_04, ghi_1500.
    eexists. eexists. cbv zeta.
    split; [reflexivity | split; [reflexivity |]].
    vm_compute. discriminate.
Qed.

(** The series behind the second half of C10: the exported production is
    1445.0 and the exported capacity factor 16.496, while 1445.0 gives
    16.495. *)
Example rounded_production_misleads :
  let d := success_record VNone VNone VNone (85 # 100) poa_1700_04 ghi_1500 in
  holds d "Specific Production (kWh/kWp)" 1445 /\
  holds d "CF (%)" (16496 # 1000) /\
  feq (round (Fin 1445 / Fin 8760 * Fin 100)%float 3) (Fin (16495 # 1000)).
Proof.
  repeat split; try reflexivity; eexists; split; reflexivity.
Qed.

(** ** Rows of the sheet *)

Lemma series_lookup_in (labels : list string) (vals : list value) (k : string) :
  In k labels -> exists v, series_lookup labels vals k = Some v.
Proof.
  revert vals. induction labels as [| l labels IH]; intros vals Hin.
  - destruct Hin.
  - destruct vals as [| v vals]; cbn [series_lookup];
      destruct (String.eqb_spec k l) as [-> | Hne]; eauto;
      destruct Hin as [-> | Hin]; try congruence; now apply IH.
Qed.

Lemma series_lookup_not_in (labels : list string) (vals : list value)
    (k : string) :
  ~ In k labels -> series_lookup labels vals k = None.
Proof.
  revert vals. induction labels as [| l labels IH]; intros vals Hin.
  - now destruct vals.
  - destruct vals as [| v vals]; cbn [series_lookup];
      destruct (String.eqb_spec k l) as [-> | Hne];
      try (exfalso; apply Hin; now left);
      apply IH; intros H; apply Hin; now right.
Qed.

Lemma requests_app (tr1 tr2 : list event) :
  requests (tr1 ++ tr2) = requests tr1 ++ requests tr2.
Proof.
  unfold requests. apply flat_map_app.
Qed.

(** ** One turn of the loop *)

Section Loop.
Context {ext : Externals}.

Lemma fraction_in_range (idx total : nat) :
  (idx < total)%nat ->
  Qle_bool 0 (fraction idx total) && Qle_bool (fraction idx total) 1 = true.
Proof.
  intros H. unfold fraction.
  assert (Hb : 0 < inject_Z (Z.of_nat total)).
  { change 0 with (inject_Z 0). rewrite <- Zlt_Qlt. lia. }
  assert (Ha : 0 <= inject_Z (Z.of_nat (idx + 1))).
  { change 0 with (inject_Z 0). rewrite <- Zle_Qle. lia. }
  assert (Hab : inject_Z (Z.of_nat (idx + 1)) <= inject_Z (Z.of_nat total)).
  { rewrite <- Zle_Qle. lia. }
  apply andb_true_intro. split; apply Qle_bool_iff.
  - apply Qle_shift_div_l; [exact Hb | lra].
  - apply Qle_shift_div_r; [exact Hb | lra].
Qed.

Lemma progress_in_range (idx total : nat) (s : St) :
  (idx < total)%nat ->
  progress (fraction idx total) s =
  (inr tt, mkSt (world s) (session s)
             (trace s ++ [StProgress (fraction idx total)])).
Proof.
  intros H. unfold progress. now rewrite fraction_in_range.
Qed.

Lemma site_body_turn tilt PR total results idx row name lat lon s :
  series_lookup (fst row) (snd row) "name" = Some name ->
  series_lookup (fst row) (snd row) "Lat" = Some lat ->
  series_lookup (fst row) (snd row) "Long" = Some lon ->
  (idx < total)%nat ->
  site_body tilt PR total results idx row s =
  turn tilt PR total results idx name lat lon s.
Proof.
  intros Hn Hla Hlo Hidx.
  unfold site_body, turn, getitem, bind at 1 2 3.
  rewrite Hn, Hla, Hlo. cbn [ret].
  unfold bind at 1, try_except, bind at 1.
  destruct (estimate tilt PR name lat lon s) as [[e | d] s1].
  - unfold bind, emit, ret. cbn.
    now rewrite progress_in_range.
  - unfold bind, ret. cbn.
    now rewrite progress_in_range.
Qed.

(** A row that lacks one of the three columns ends the run at once. *)
Lemma site_body_missing tilt PR total results idx row s :
  ~ (In "name" (fst row) /\ In "Lat" (fst row) /\ In "Long" (fst row)) ->
  exists k,
    In k ["name"; "Lat"; "Long"] /\
    ~ In k (fst row) /\
    site_body tilt PR total results idx row s = (inl (KeyError k), s).
Proof.
  intros Hmiss. unfold site_body, getitem.
  destruct (in_dec string_dec "name" (fst row)) as [Hn | Hn].
  2:{ exists "name". split; [now left | split; [exact Hn |]].
      unfold bind at 1. now rewrite (series_lookup_not_in _ _ _ Hn). }
  destruct (series_lookup_in _ (snd row) _ Hn) as [name ->].
  destruct (in_dec string_dec "Lat" (fst row)) as [Hla | Hla].
  2:{ exists "Lat". split; [right; now left | split; [exact Hla |]].
      unfold bind at 1. cbn [ret]. unfold bind at 1.
      now rewrite (series_lookup_not_in _ _ _ Hla). }
  destruct (series_lookup_in _ (snd row) _ Hla) as [lat ->].
  destruct (in_dec string_dec "Long" (fst row)) as [Hlo | Hlo].
  2:{ exists "Long". split; [right; right; now left | split; [exact Hlo |]].
      unfold bind at 1. cbn [ret]. unfold bind at 1. cbn [ret].
      unfold bind at 1.
      now rewrite (series_lookup_not_in _ _ _ Hlo). }
  exfalso. apply Hmiss. auto.
Qed.

End Loop.

(** ** The record of a failed site *)

(** Which key of a literal dict a lookup [H] hits. *)
Ltac case_keys k H :=
  repeat match type of H with
         | context [String.eqb k ?c] =>
             destruct (String.eqb_spec k c) as [-> | _]
         end.

Lemma failure_record_nulls name lat lon k :
  In k numeric_columns -> null_entry (failure_record name lat lon) k.
Proof.
  unfold numeric_columns. cbn [In].
  intros [<- | [<- | [<- | [<- | [<- | []]]]]]; reflexivity.
Qed.

Lemma failure_record_no_error name lat lon :
  ~ has_error_description (failure_record name lat lon).
Proof.
  intros (k & msg & Hk & Hget & _).
  unfold failure_record in Hget. cbn [dict_get] in Hget.
  unfold identity_columns in Hk. cbn [In] in Hk.
  case_keys k Hget; try discriminate; apply Hk; auto.
Qed.

Lemma append_assoc (a b c : string) :
  ((a ++ b) ++ c)%string = (a ++ (b ++ c))%string.
Proof.
  induction a as [| ch a IH]; cbn [String.append]; [reflexivity | now rewrite IH].
Qed.

Lemma failure_message_nonempty {ext : Externals} name e :
  failure_message name e <> "".
Proof.
  unfold failure_message. discriminate.
Qed.

Section FailedSite.
Context {ext : Externals}.
Variables (tilt : Z) (PR : Q) (total idx : nat) (results : list dict).
Variables (row : Series) (name lat lon : value) (s s1 : St) (e : exn).
Hypothesis Hname : series_lookup (fst row) (snd row) "name" = Some name.
Hypothesis Hlat : series_lookup (fst row) (snd row) "Lat" = Some lat.
Hypothesis Hlon : series_lookup (fst row) (snd row) "Long" = Some lon.
Hypothesis Hidx : (idx < total)%nat.
Hypothesis Hfail : estimate tilt PR name lat lon s = (inl e, s1).

Lemma failed_turn :
  site_body tilt PR total results idx row s =
  (inr (results ++ [failure_record name lat lon]),
   mkSt (world s1) (session s)
        (trace s ++ [Request lat lon; StError (failure_message name e);
                     StProgress (fraction idx total)])).
Proof.
  rewrite (site_body_turn _ _ _ _ _ _ _ _ _ _ Hname Hlat Hlon Hidx).
  unfold turn. rewrite Hfail.
  pose proof (estimate_state tilt PR name lat lon s) as Hs.
  rewrite Hfail in Hs. cbn [snd] in Hs. rewrite Hs. cbn [world session trace].
  now rewrite <- !app_assoc.
Qed.

End FailedSite.

(** C1, amended.  For a site whose retrieval or computation raises, the turn
    of the loop appends one record in which every numeric field is null
    (GII, specific production and capacity factor are [None]; GHI and uplift
    are not set and read as [nan] in the table) and which carries no error
    description; the description of the failure is shown once instead, as
    the non-empty message that names the site and ends with the text of the
    exception; one request has been sent, and the loop goes on with the
    remaining sites. *)
Theorem failed_site
    {ext : Externals} tilt PR total results idx row rest name lat lon s s1 e :
  series_lookup (fst row) (snd row) "name" = Some name ->
  series_lookup (fst row) (snd row) "Lat" = Some lat ->
  series_lookup (fst row) (snd row) "Long" = Some lon ->
  (idx < total)%nat ->
  estimate tilt PR name lat lon s = (inl e, s1) ->
  exists d s2 msg,
    site_body tilt PR total results idx row s = (inr (results ++ [d]), s2) /\
    (forall k, In k numeric_columns -> null_entry d k) /\
    (dict_get d "GII (kWh/m²)" = Some VNone /\
     dict_get d "Specific Production (kWh/kWp)" = Some VNone /\
     dict_get d "CF (%)" = Some VNone) /\
    (dict_get d "GHI (kWh/m²)" = None /\
     reindex d "GHI (kWh/m²)" = VFloat NaN /\
     dict_get d "Uplift (%)" = None /\
     reindex d "Uplift (%)" = VFloat NaN) /\
    ~ has_error_description d /\
    trace s2 = trace s ++ [Request lat lon; StError msg;
                           StProgress (fraction idx total)] /\
    msg = ("❌ Failed for " ++ str name ++ ": " ++ str_exn e)%string /\
    msg <> "" /\
    (exists prefix, msg = (prefix ++ str_exn e)%string) /\
    site_loop tilt PR total results idx (row :: rest) s =
    site_loop tilt PR total (results ++ [d]) (S idx) rest s2.
Proof.
  intros Hn Hla Hlo Hidx Hfail.
  pose proof (failed_turn tilt PR total idx results row name lat lon s s1 e
                Hn Hla Hlo Hidx Hfail) as Hturn.
  eexists. eexists. exists (failure_message name e).
  split; [exact Hturn |].
  split; [intros k; apply failure_record_nulls |].
  split; [repeat split |].
  split; [repeat split |].
  split; [apply failure_record_no_error |].
  split; [reflexivity |].
  split; [reflexivity |].
  split; [apply failure_message_nonempty |].
  split.
  - exists ("❌ Failed for " ++ str name ++ ": ")%string.
    unfold failure_message.
    now rewrite !append_assoc.
  - cbn [site_loop]. unfold bind at 1. now rewrite Hturn.
Qed.

Lemma failed_site_witness :
  exists d s2 msg,
    @site_body (stub (covered ghi_1500 poa_1700)) 20 (85 # 100) 1 [] 0
      (columns sheet, nowhere) (start (stub (covered ghi_1500 poa_1700)) O)
    = (inr ([] ++ [d]), s2) /\
    (forall k, In k numeric_columns -> null_entry d k) /\
    (dict_get d "GII (kWh/m²)" = Some VNone /\
     dict_get d "Specific Production (kWh/kWp)" = Some VNone /\
     dict_get d "CF (%)" = Some VNone) /\
    (dict_get d "GHI (kWh/m²)" = None /\
     reindex d "GHI (kWh/m²)" = VFloat NaN /\
     dict_get d "Uplift (%)" = None /\
     reindex d "Uplift (%)" = VFloat NaN) /\
    ~ has_error_description d /\
    trace s2 =
      trace (start (stub (covered ghi_1500 poa_1700)) O)
        ++ [Request (VFloat (Fin 95)) (VFloat (Fin 0)); StError msg;
            StProgress (fraction 0 1)] /\
    msg = "❌ Failed for Nowhere: latitude out of range" /\
    msg <> "" /\
    (exists prefix,
        msg = (prefix ++ str_exn (Exception "latitude out of range"))%string) /\
    @site_loop (stub (covered ghi_1500 poa_1700)) 20 (85 # 100) 1 [] 0
      [(columns sheet, nowhere)] (start (stub (covered ghi_1500 poa_1700)) O)
    = @site_loop (stub (covered ghi_1500 poa_1700)) 20 (85 # 100) 1
        ([] ++ [d]) 1 [] s2.
Proof.
  eapply (@failed_site (stub (covered ghi_1500 poa_1700)) 20 (85 # 100)
            1%nat [] 0%nat (columns sheet, nowhere) []
            (VStr "Nowhere") (VFloat (Fin 95)) (VFloat (Fin 0))
            (start (stub (covered ghi_1500 poa_1700)) O)
            _ (Exception "latitude out of range"));
    try reflexivity.
  lia.
Defined.

(** C1 as the specification words it fails: the record appended for a site
    whose retrieval was refused carries no error description. *)
Lemma failed_site_record_lacks_error :
  exists e s1 d s2,
    @estimate (stub (covered ghi_1500 poa_1700)) 20 (85 # 100)
      (VStr "Nowhere") (VFloat (Fin 95)) (VFloat (Fin 0))
      (start (stub (covered ghi_1500 poa_1700)) O) = (inl e, s1) /\
    @site_body (stub (covered ghi_1500 poa_1700)) 20 (85 # 100) 1 [] 0
      (columns sheet, nowhere) (start (stub (covered ghi_1500 poa_1700)) O)
    = (inr [d], s2) /\
    ~ has_error_description d.
Proof.
  do 4 eexists.
  split; [reflexivity | split; [reflexivity |]].
  apply failure_record_no_error.
Qed.

(** C9. The record appended for a failed site carries the name, latitude
    and longitude of its row of the sheet unchanged; what failure leaves
    null are the yield figures only. *)
Theorem failed_site_keeps_identity
    {ext : Externals} tilt PR total results idx row name lat lon s s1 e :
  series_lookup (fst row) (snd row) "name" = Some name ->
  series_lookup (fst row) (snd row) "Lat" = Some lat ->
  series_lookup (fst row) (snd row) "Long" = Some lon ->
  (idx < total)%nat ->
  estimate tilt PR name lat lon s = (inl e, s1) ->
  exists d s2,
    site_body tilt PR total results idx row s = (inr (results ++ [d]), s2) /\
    dict_get d "Site" = Some name /\
    dict_get d "Lat" = Some lat /\
    dict_get d "Long" = Some lon /\
    (forall k v, dict_get d k = Some v ->
                 In k identity_columns \/ In k numeric_columns /\ v = VNone).
Proof.
  intros Hn Hla Hlo Hidx Hfail.
  eexists. eexists. split.
  { apply (failed_turn tilt PR total idx results row name lat lon s s1 e
             Hn Hla Hlo Hidx Hfail). }
  repeat split.
  intros k v Hget. unfold failure_record in Hget. cbn [dict_get] in Hget.
  unfold identity_columns, numeric_columns. cbn [In].
  case_keys k Hget; try discriminate; injection Hget as <-; auto 10.
Qed.

Lemma failed_site_keeps_identity_witness :
  exists d s2,
    @site_body (stub (covered ghi_1500 poa_1700)) 20 (85 # 100) 1 [] 0
      (columns sheet, nowhere) (start (stub (covered ghi_1500 poa_1700)) O)
    = (inr ([] ++ [d]), s2) /\
    dict_get d "Site" = Some (VStr "Nowhere") /\
    dict_get d "Lat" = Some (VFloat (Fin 95)) /\
    dict_get d "Long" = Some (VFloat (Fin 0)) /\
    (forall k v, dict_get d k = Some v ->
                 In k identity_columns \/ In k numeric_columns /\ v = VNone).
Proof.
  eapply (@failed_site_keeps_identity (stub (covered ghi_1500 poa_1700))
            20 (85 # 100) 1%nat [] 0%nat (columns sheet, nowhere)
            (VStr "Nowhere") (VFloat (Fin 95)) (VFloat (Fin 0))
            (start (stub (covered ghi_1500 poa_1700)) O));
    try reflexivity.
  lia.
Defined.

(** ** The whole loop *)

Section WholeLoop.
Context {ext : Externals}.

Lemma estimate_returns tilt PR name lat lon s d s1 :
  estimate tilt PR name lat lon s = (inr d, s1) ->
  exists poa ghi, d = success_record name lat lon PR poa ghi.
Proof.
  unfold estimate, bind, pvgis_tmy.
  destruct (get_pvgis_tmy lat lon (world s)) as [[e | tmy] w]; cbn;
    [discriminate |].
  destruct (get_solarposition tmy lat lon) as [e | sp]; cbn; [discriminate |].
  destruct (get_total_irradiance tilt 180 tmy sp) as [e | poa]; cbn;
    [discriminate |].
  intros [= <- _]. eauto.
Qed.

(** Every turn on a well-formed row appends one record that names the
    site of the row, and sends one request. *)
Lemma turn_appends tilt PR total results idx name lat lon s :
  exists d s',
    turn tilt PR total results idx name lat lon s = (inr (results ++ [d]), s') /\
    dict_get d "Site" = Some name /\
    dict_get d "Lat" = Some lat /\
    dict_get d "Long" = Some lon /\
    requests (trace s') = requests (trace s) ++ [(lat, lon)].
Proof.
  unfold turn.
  pose proof (estimate_state tilt PR name lat lon s) as Hs.
  destruct (estimate tilt PR name lat lon s) as [[e | d] s1] eqn:He;
    cbn [snd] in Hs; subst s1; cbn [world session trace].
  - eexists. eexists. split; [reflexivity |].
    repeat split. cbn [trace]. rewrite !requests_app.
    cbn [requests flat_map app]. now rewrite ?app_nil_r.
  - destruct (estimate_returns _ _ _ _ _ _ _ _ He) as (poa & ghi & ->).
    eexists. eexists. split; [reflexivity |].
    repeat split. cbn [trace]. rewrite !requests_app.
    cbn [requests flat_map app]. now rewrite ?app_nil_r.
Qed.

Lemma site_loop_runs tilt PR total cols :
  In "name" cols -> In "Lat" cols -> In "Long" cols ->
  forall vals results idx s,
    (idx + List.length vals <= total)%nat ->
    exists out s',
      site_loop tilt PR total results idx (map (fun r => (cols, r)) vals) s
      = (inr (results ++ out), s') /\
      Forall2 same_identity (map (fun r => (cols, r)) vals) out /\
      List.length (requests (trace s')) =
        (List.length (requests (trace s)) + List.length vals)%nat.
Proof.
  intros Hn Hla Hlo.
  induction vals as [| r vals IH]; intros results idx s Hlen.
  - exists [], s. cbn. rewrite app_nil_r. repeat split; [constructor | lia].
  - cbn [map site_loop List.length] in *.
    destruct (series_lookup_in cols r "name" Hn) as [name Hname].
    destruct (series_lookup_in cols r "Lat" Hla) as [lat Hlat].
    destruct (series_lookup_in cols r "Long" Hlo) as [lon Hlon].
    unfold bind at 1.
    rewrite (site_body_turn tilt PR total results idx (cols, r) name lat lon s
               Hname Hlat Hlon) by lia.
    destruct (turn_appends tilt PR total results idx name lat lon s)
      as (d & s1 & -> & Hd1 & Hd2 & Hd3 & Hreq).
    destruct (IH (results ++ [d]) (S idx) s1) as (out & s' & -> & Hid & Hcnt);
      [lia |].
    exists (d :: out), s'. split; [now rewrite <- app_assoc |].
    split.
    + constructor; [| exact Hid].
      unfold same_identity. cbn [fst snd].
      rewrite Hname, Hlat, Hlon, Hd1, Hd2, Hd3.
      repeat split; discriminate.
    + rewrite Hcnt, Hreq, length_app. cbn. lia.
Qed.

End WholeLoop.

Lemma len_DataFrame_of_dicts (ds : list dict) :
  len (DataFrame_of_dicts ds) = List.length ds.
Proof.
  unfold len, DataFrame_of_dicts. cbn [rows]. apply length_map.
Qed.

(** C2. On a sheet that has the columns name, Lat and Long, the run
    completes and leaves a table with one record per row of the sheet, in
    the order of the sheet, whether the sites succeed or fail; it has sent
    one request per row. *)
Theorem one_result_per_site {ext : Externals} tilt PR site_df s :
  has_columns site_df ->
  exists results s',
    run_analysis tilt PR site_df s = (inr tt, s') /\
    session s' = mkSession true (Some (DataFrame_of_dicts results)) /\
    List.length results = len site_df /\
    len (DataFrame_of_dicts results) = len site_df /\
    Forall2 same_identity (iterrows site_df) results /\
    List.length (requests (trace s')) =
      (List.length (requests (trace s)) + len site_df)%nat.
Proof.
  intros (Hn & Hla & Hlo).
  set (s0 := mkSt (world s) (mkSession false (result_df (session s)))
                  (trace s ++ [StProgress 0])).
  destruct (site_loop_runs tilt PR (len site_df) (columns site_df) Hn Hla Hlo
              (rows site_df) [] 0%nat s0) as (out & s' & Hrun & Hid & Hreq).
  { unfold len. lia. }
  cbn [app] in Hrun.
  exists out. eexists. split.
  - unfold run_analysis, bind, get_session, set_session, emit. cbn.
    fold s0. unfold iterrows. rewrite Hrun. reflexivity.
  - cbn [session trace].
    assert (Hlen : List.length out = len site_df).
    { apply Forall2_length in Hid. unfold iterrows in Hid.
      rewrite length_map in Hid. unfold len. congruence. }
    repeat split;
      [exact Hlen | now rewrite len_DataFrame_of_dicts | exact Hid |].
    rewrite !requests_app. cbn [requests flat_map app]. rewrite !app_nil_r.
    rewrite Hreq. unfold s0. cbn [trace]. rewrite requests_app.
    cbn [requests flat_map app]. rewrite app_nil_r. reflexivity.
Qed.

Lemma one_result_per_site_witness :
  exists results s',
    @run_analysis (stub (covered ghi_1500 poa_1700)) 20 (85 # 100) sheet
      (start (stub (covered ghi_1500 poa_1700)) O) = (inr tt, s') /\
    session s' = mkSession true (Some (DataFrame_of_dicts results)) /\
    List.length results = len sheet /\
    len (DataFrame_of_dicts results) = len sheet /\
    Forall2 same_identity (iterrows sheet) results /\
    List.length (requests (trace s')) = (0 + len sheet)%nat.
Proof.
  apply (@one_result_per_site (stub (covered ghi_1500 poa_1700))).
  unfold has_columns. simpl. intuition.
Defined.

(** ** Input that is not a sheet of sites *)







(** On the sheet of the witness, which lacks name and Long, the column
    that the exception names is name. *)
Example lat_only_sheet_raises_name :
  fst (@script (stub (covered ghi_1500 poa_1700)) (Some sheet_with_lat_only)
         true 20 (85 # 100) (start (stub (covered ghi_1500 poa_1700)) O))
  = inl (KeyError "name").
Proof.
  reflexivity.
Qed.

(** ** The data handed to the charts *)

(** C6.  The charts are fed from the rows whose capacity factor is not
    null, but a run in which no site produced a valid result does not
    always reach them: after a run over a sheet without rows the table has
    no column at all, selecting the valid rows raises [KeyError], and the
    script ends before any chart is drawn. *)
Theorem empty_run_breaks_charts {ext : Externals} f df tilt PR s :
  read_excel f = inr df ->
  rows df = [] ->
  exists s',
    script (Some f) true tilt PR s = (inl (KeyError "CF (%)"), s') /\
    result_df (session s') = Some (mkDataFrame [] []) /\
    trace s' =
      trace s ++ [StSuccess; StProgress 0; StSuccess;
                  StDataframe (mkDataFrame [] []);
                  StDataframe (mkDataFrame [] []);
                  StDownload (mkDataFrame [] [])].
Proof.
  intros Hread Hrows. destruct df as [cols rs]. cbn in Hrows. subst rs.
  eexists. split.
  - unfold script. unfold bind at 1. unfold bind at 1.
    rewrite Hread. cbn. reflexivity.
  - cbn. split; [reflexivity |]. now rewrite <- !app_assoc.
Qed.

Lemma empty_run_breaks_charts_witness :
  exists s',
    @script (stub (covered ghi_1500 poa_1700)) (Some empty_sheet) true 20
      (85 # 100) (start (stub (covered ghi_1500 poa_1700)) O)
    = (inl (KeyError "CF (%)"), s') /\
    result_df (session s') = Some (mkDataFrame [] []) /\
    trace s' =
      [StSuccess; StProgress 0; StSuccess;
       StDataframe (mkDataFrame [] []);
       StDataframe (mkDataFrame [] []);
       StDownload (mkDataFrame [] [])].
Proof.
  apply (@empty_run_breaks_charts (stub (covered ghi_1500 poa_1700))
           empty_sheet empty_sheet 20 (85 # 100)
           (start (stub (covered ghi_1500 poa_1700)) O));
    reflexivity.
Defined.

Lemma union_keys_failed (ds : list dict) :
  Forall failed ds -> union_keys failure_columns ds = failure_columns.
Proof.
  induction 1 as [| d ds (name & lat & lon & ->) _ IH]; [reflexivity |].
  cbn [union_keys]. exact IH.
Qed.

Lemma failed_rows_are_dropped (ds : list dict) :
  Forall failed ds ->
  filter (fun r => negb (isna (cell 5 r)))
    (map (fun d => map (reindex d) failure_columns) ds) = [].
Proof.
  induction 1 as [| d ds (name & lat & lon & ->) _ IH]; [reflexivity |].
  cbn [map filter]. exact IH.
Qed.

Lemma table_of_failed (d : dict) (ds : list dict) :
  Forall failed (d :: ds) ->
  columns (DataFrame_of_dicts (d :: ds)) = failure_columns /\
  valid_rows 5 (DataFrame_of_dicts (d :: ds)) = [].
Proof.
  intros Hall.
  assert (Hcols : union_keys [] (d :: ds) = failure_columns).
  { inversion Hall as [| ? ? (name & lat & lon & ->) Hds]; subst.
    cbn [union_keys]. now apply union_keys_failed. }
  unfold valid_rows, DataFrame_of_dicts. cbn [columns rows].
  rewrite Hcols. split; [reflexivity |].
  now apply failed_rows_are_dropped.
Qed.

Section Charts.
Context {ext : Externals}.

(** The three charts are drawn from the rows whose capacity factor is not
    null, and from nothing else. *)
Lemma charts_use_valid_rows (df : DataFrame) (i j : nat) (s : St) :
  index_of "CF (%)" (columns df) = Some i ->
  index_of "Site" (columns df) = Some j ->
  let valid := valid_rows i df in
  let sorted := fold_right (insert_desc i) [] valid in
  presentation df s =
  (inr tt,
   mkSt (world s) (session s)
        (trace s ++ [StDataframe df; StDownload df;
                     Hist (map (cell i) valid); Boxplot (map (cell i) valid);
                     Barh (inject_Z (Z.of_nat (List.length valid)) * (4 # 10))
                          (map (cell j) sorted) (map (cell i) sorted)])).
Proof.
  intros Hi Hj valid sorted.
  unfold presentation, bind, emit, lift, dropna, column, sort_values_desc.
  cbn [world session trace]. rewrite Hi. cbn [columns rows ret].
  rewrite Hi. cbn [columns rows ret]. rewrite Hj, Hi. cbn.
  fold (valid_rows i df). fold valid. fold sorted.
  unfold len. cbn [rows]. fold (valid_rows i df). fold valid.
  now rewrite <- !app_assoc.
Qed.

(** When at least one site was processed and all of them failed, the
    charts are drawn from no data. *)
Lemma all_failed_charts_are_empty (d : dict) (ds : list dict) (s : St) :
  Forall failed (d :: ds) ->
  let df := DataFrame_of_dicts (d :: ds) in
  presentation df s =
  (inr tt,
   mkSt (world s) (session s)
        (trace s ++ [StDataframe df; StDownload df; Hist []; Boxplot [];
                     Barh (0 * (4 # 10)) [] []])).
Proof.
  intros Hall df.
  destruct (table_of_failed d ds Hall) as [Hcols Hvalid].
  rewrite (charts_use_valid_rows df 5 0 s);
    [| fold df in Hcols; now rewrite Hcols ..].
  fold df in Hvalid. now rewrite Hvalid.
Qed.

End Charts.

Lemma valid_rows_not_null (i : nat) (df : DataFrame) (r : list value) :
  In r (valid_rows i df) <-> In r (rows df) /\ isna (cell i r) = false.
Proof.
  unfold valid_rows. rewrite filter_In.
  now rewrite negb_true_iff.
Qed.

(** * Further properties of the script *)

(** ** What a run leaves in the trace *)

Lemma errors_app (tr1 tr2 : list event) :
  errors (tr1 ++ tr2) = errors tr1 ++ errors tr2.
Proof.
  unfold errors. apply flat_map_app.
Qed.

Lemma progresses_app (tr1 tr2 : list event) :
  progresses (tr1 ++ tr2) = progresses tr1 ++ progresses tr2.
Proof.
  unfold progresses. apply flat_map_app.
Qed.

Lemma series_get_lookup (row : Series) (k : string) (v : value) :
  series_lookup (fst row) (snd row) k = Some v -> series_get row k = v.
Proof.
  intros H. unfold series_get. now rewrite H.
Qed.

Section Trace.
Context {ext : Externals}.

(** The two ways in which a turn on a well-formed row can end. *)
Lemma turn_cases tilt PR total results idx name lat lon s :
  exists d s',
    turn tilt PR total results idx name lat lon s = (inr (results ++ [d]), s') /\
    session s' = session s /\
    ((exists e,
         d = failure_record name lat lon /\
         trace s' = trace s ++ [Request lat lon;
                                StError (failure_message name e);
                                StProgress (fraction idx total)])
     \/
     (exists poa ghi,
         d = success_record name lat lon PR poa ghi /\
         trace s' = trace s ++ [Request lat lon;
                                StProgress (fraction idx total)])).
Proof.
  unfold turn.
  pose proof (estimate_state tilt PR name lat lon s) as Hs.
  destruct (estimate tilt PR name lat lon s) as [[e | d] s1] eqn:He;
    cbn [snd] in Hs; subst s1; cbn [world session trace].
  - eexists. eexists. split; [reflexivity |]. split; [reflexivity |].
    left. exists e. split; [reflexivity |].
    cbn [trace]. now rewrite <- !app_assoc.
  - destruct (estimate_returns _ _ _ _ _ _ _ _ He) as (poa & ghi & ->).
    eexists. eexists. split; [reflexivity |]. split; [reflexivity |].
    right. exists poa, ghi. split; [reflexivity |].
    cbn [trace]. now rewrite <- !app_assoc.
Qed.

Lemma site_loop_trace tilt PR total cols :
  In "name" cols -> In "Lat" cols -> In "Long" cols ->
  forall vals results idx s,
    (idx + List.length vals <= total)%nat ->
    exists out s',
      site_loop tilt PR total results idx (map (fun r => (cols, r)) vals) s
      = (inr (results ++ out), s') /\
      session s' = session s /\
      Forall2 (outcome PR) (map (fun r => (cols, r)) vals) out /\
      requests (trace s') =
        requests (trace s) ++ map coordinates (map (fun r => (cols, r)) vals) /\
      progresses (trace s') =
        progresses (trace s)
          ++ map (fun i => fraction i total) (seq idx (List.length vals)) /\
      List.length (errors (trace s')) =
        (List.length (errors (trace s))
         + List.length (filter (fun d => negb (is_valid d)) out))%nat.
Proof.
  intros Hn Hla Hlo.
  induction vals as [| r vals IH]; intros results idx s Hlen.
  - exists [], s. cbn. rewrite !app_nil_r.
    repeat split; [constructor | lia].
  - cbn [map site_loop List.length seq] in *.
    destruct (series_lookup_in cols r "name" Hn) as [name Hname].
    destruct (series_lookup_in cols r "Lat" Hla) as [lat Hlat].
    destruct (series_lookup_in cols r "Long" Hlo) as [lon Hlon].
    unfold bind at 1.
    rewrite (site_body_turn tilt PR total results idx (cols, r) name lat lon s
               Hname Hlat Hlon) by lia.
    destruct (turn_cases tilt PR total results idx name lat lon s)
      as (d & s1 & -> & Hses & Hcase).
    destruct (IH (results ++ [d]) (S idx) s1)
      as (out & s' & -> & Hses' & Hout & Hreq & Hpro & Herr); [lia |].
    exists (d :: out), s'. split; [now rewrite <- app_assoc |].
    split; [congruence |].
    assert (Hcoord : coordinates (cols, r) = (lat, lon)).
    { unfold coordinates.
      now rewrite (series_get_lookup (cols, r) "Lat" lat Hlat),
                  (series_get_lookup (cols, r) "Long" lon Hlon). }
    assert (Hrow : outcome PR (cols, r) d).
    { unfold outcome.
      rewrite (series_get_lookup (cols, r) "name" name Hname),
              (series_get_lookup (cols, r) "Lat" lat Hlat),
              (series_get_lookup (cols, r) "Long" lon Hlon).
      destruct Hcase as [(e & -> & _) | (poa & ghi & -> & _)]; eauto. }
    split; [now constructor |].
    rewrite Hreq, Hpro, Herr, Hcoord.
    destruct Hcase as [(e & -> & ->) | (poa & ghi & -> & ->)];
      rewrite requests_app, progresses_app, errors_app;
      cbn [requests progresses errors flat_map app filter is_valid];
      rewrite ?app_nil_r, <- ?app_assoc, ?length_app;
      cbn [app List.length];
      (split; [reflexivity | split; [reflexivity |]]).
    + change (negb (is_valid (failure_record name lat lon))) with true.
      cbn [List.length]. lia.
    + change (negb (is_valid (success_record name lat lon PR poa ghi)))
        with false.
      lia.
Qed.

End Trace.

Lemma run_analysis_trace {ext : Externals} tilt PR site_df s :
  has_columns site_df ->
  exists results s',
    run_analysis tilt PR site_df s = (inr tt, s') /\
    session s' = mkSession true (Some (DataFrame_of_dicts results)) /\
    Forall2 (outcome PR) (iterrows site_df) results /\
    requests (trace s') =
      requests (trace s) ++ map coordinates (iterrows site_df) /\
    progresses (trace s') =
      progresses (trace s)
        ++ 0 :: map (fun i => fraction i (len site_df)) (seq 0 (len site_df)) /\
    List.length (errors (trace s')) =
      (List.length (errors (trace s))
       + List.length (filter (fun d => negb (is_valid d)) results))%nat.
Proof.
  intros (Hn & Hla & Hlo).
  set (s0 := mkSt (world s) (mkSession false (result_df (session s)))
                  (trace s ++ [StProgress 0])).
  destruct (site_loop_trace tilt PR (len site_df) (columns site_df) Hn Hla Hlo
              (rows site_df) [] 0%nat s0)
    as (out & s' & Hrun & _ & Hout & Hreq & Hpro & Herr).
  { unfold len. lia. }
  cbn [app] in Hrun.
  exists out. eexists. split.
  - unfold run_analysis, bind, get_session, set_session, emit. cbn.
    fold s0. unfold iterrows. rewrite Hrun. reflexivity.
  - cbn [session trace]. split; [reflexivity |]. split; [exact Hout |].
    rewrite !requests_app, !progresses_app, !errors_app.
    cbn [requests progresses errors flat_map app]. rewrite !app_nil_r.
    rewrite Hreq, Hpro, Herr. unfold s0. cbn [trace].
    rewrite requests_app, progresses_app, errors_app.
    cbn [requests progresses errors flat_map app]. rewrite !app_nil_r.
    unfold iterrows, len. rewrite <- app_assoc. cbn [app].
    repeat split.
Qed.

(** X1.  On a sheet with the three columns the run sends its requests in
    the order of the sheet, one per row, each with the latitude and the
    longitude of its row. *)
Theorem requests_follow_sheet {ext : Externals} tilt PR site_df s :
  has_columns site_df ->
  exists s',
    run_analysis tilt PR site_df s = (inr tt, s') /\
    requests (trace s') =
      requests (trace s) ++ map coordinates (iterrows site_df).
Proof.
  intros H.
  destruct (run_analysis_trace tilt PR site_df s H)
    as (results & s' & Hrun & _ & _ & Hreq & _).
  now exists s'.
Qed.

Lemma requests_follow_sheet_witness :
  exists s',
    @run_analysis (stub (covered ghi_1500 poa_1700)) 20 (85 # 100) sheet
      (start (stub (covered ghi_1500 poa_1700)) O) = (inr tt, s') /\
    requests (trace s') =
      [] ++ [(VFloat (Fin (458 # 10)), VFloat (Fin (86 # 10)));
             (VFloat (Fin 95), VFloat (Fin 0))].
Proof.
  apply (@requests_follow_sheet (stub (covered ghi_1500 poa_1700))
           20 (85 # 100) sheet (start (stub (covered ghi_1500 poa_1700)) O)).
  unfold has_columns. simpl. intuition.
Defined.

Lemma fraction_last (n : nat) : (0 < n)%nat -> fraction (n - 1) n == 1.
Proof.
  intros H. unfold fraction.
  replace (n - 1 + 1)%nat with n by lia.
  apply Qmult_inv_r.
  change 0 with (inject_Z 0). rewrite inject_Z_injective. lia.
Qed.

(** X2.  During a run over a sheet of [n] rows the progress bar is set to
    0 and then to 1/n, 2/n, ..., n/n, in this order; every value is
    accepted by the bar, and the last one is 1. *)
Theorem progress_counts_rows {ext : Externals} tilt PR site_df s :
  has_columns site_df ->
  exists s',
    run_analysis tilt PR site_df s = (inr tt, s') /\
    progresses (trace s') =
      progresses (trace s)
        ++ 0 :: map (fun i => fraction i (len site_df))
                    (seq 0 (len site_df)) /\
    (forall i, (i < len site_df)%nat ->
               0 <= fraction i (len site_df) <= 1) /\
    ((0 < len site_df)%nat ->
     fraction (len site_df - 1) (len site_df) == 1).
Proof.
  intros H.
  destruct (run_analysis_trace tilt PR site_df s H)
    as (results & s' & Hrun & _ & _ & _ & Hpro & _).
  exists s'. split; [exact Hrun |]. split; [exact Hpro |]. split.
  - intros i Hi. pose proof (fraction_in_range i (len site_df) Hi) as Hb.
    apply andb_prop in Hb. destruct Hb as [H0 H1].
    split; now apply Qle_bool_iff.
  - apply fraction_last.
Qed.

Lemma progress_counts_rows_witness :
  exists s',
    @run_analysis (stub (covered ghi_1500 poa_1700)) 20 (85 # 100) sheet
      (start (stub (covered ghi_1500 poa_1700)) O) = (inr tt, s') /\
    progresses (trace s') = [] ++ [0; fraction 0 2; fraction 1 2] /\
    (forall i, (i < len sheet)%nat -> 0 <= fraction i (len sheet) <= 1) /\
    ((0 < len sheet)%nat -> fraction (len sheet - 1) (len sheet) == 1).
Proof.
  apply (@progress_counts_rows (stub (covered ghi_1500 poa_1700))
           20 (85 # 100) sheet (start (stub (covered ghi_1500 poa_1700)) O)).
  unfold has_columns. simpl. intuition.
Defined.

(** X3.  A run shows one error message for each site whose record has a
    null capacity factor, and none for the other sites. *)
Theorem one_error_per_failed_site {ext : Externals} tilt PR site_df s :
  has_columns site_df ->
  exists results s',
    run_analysis tilt PR site_df s = (inr tt, s') /\
    result_df (session s') = Some (DataFrame_of_dicts results) /\
    Forall2 (outcome PR) (iterrows site_df) results /\
    List.length (errors (trace s')) =
      (List.length (errors (trace s))
       + List.length (filter (fun d => negb (is_valid d)) results))%nat.
Proof.
  intros H.
  destruct (run_analysis_trace tilt PR site_df s H)
    as (results & s' & Hrun & Hses & Hout & _ & _ & Herr).
  exists results, s'. rewrite Hses. auto.
Qed.

Lemma one_error_per_failed_site_witness :
  exists results s',
    @run_analysis (stub (covered ghi_1500 poa_1700)) 20 (85 # 100) sheet
      (start (stub (covered ghi_1500 poa_1700)) O) = (inr tt, s') /\
    result_df (session s') = Some (DataFrame_of_dicts results) /\
    Forall2 (outcome (85 # 100)) (iterrows sheet) results /\
    List.length (errors (trace s')) =
      (0 + List.length (filter (fun d => negb (is_valid d)) results))%nat.
Proof.
  apply (@one_error_per_failed_site (stub (covered ghi_1500 poa_1700))
           20 (85 # 100) sheet (start (stub (covered ghi_1500 poa_1700)) O)).
  unfold has_columns. simpl. intuition.
Defined.

(** ** The table made from the records *)

Lemma produced_valid (d : dict) :
  produced d -> if is_valid d then keys d = success_columns
                else keys d = failure_columns.
Proof.
  intros [(name & lat & lon & ->)
         | (name & lat & lon & PR & poa & ghi & ->)]; reflexivity.
Qed.

Lemma union_keys_success (ds : list dict) :
  Forall produced ds -> union_keys success_columns ds = success_columns.
Proof.
  induction 1 as [| d ds [(name & lat & lon & ->)
                         | (name & lat & lon & PR & poa & ghi & ->)] _ IH];
    [reflexivity | |]; cbn [union_keys]; exact IH.
Qed.

Lemma union_keys_mixed (ds : list dict) :
  Forall produced ds -> union_keys mixed_columns ds = mixed_columns.
Proof.
  induction 1 as [| d ds [(name & lat & lon & ->)
                         | (name & lat & lon & PR & poa & ghi & ->)] _ IH];
    [reflexivity | |]; cbn [union_keys]; exact IH.
Qed.

Lemma union_keys_failure (ds : list dict) :
  Forall produced ds ->
  union_keys failure_columns ds =
  if existsb is_valid ds then mixed_columns else failure_columns.
Proof.
  induction 1 as [| d ds [(name & lat & lon & ->)
                         | (name & lat & lon & PR & poa & ghi & ->)] Hds IH].
  - reflexivity.
  - cbn [union_keys existsb].
    change (is_valid (failure_record name lat lon)) with false.
    cbn [orb]. exact IH.
  - cbn [union_keys existsb].
    change (is_valid (success_record name lat lon PR poa ghi)) with true.
    cbn [orb]. exact (union_keys_mixed ds Hds).
Qed.

Lemma columns_of_produced (d : dict) (ds : list dict) :
  Forall produced (d :: ds) ->
  columns (DataFrame_of_dicts (d :: ds)) =
  if is_valid d then success_columns
  else if existsb is_valid ds then mixed_columns
       else failure_columns.
Proof.
  intros Hall. inversion Hall as [| ? ? Hd Hds]; subst.
  unfold DataFrame_of_dicts. cbn [columns].
  destruct Hd as [(name & lat & lon & ->)
                 | (name & lat & lon & PR & poa & ghi & ->)].
  - change (is_valid (failure_record name lat lon)) with false.
    cbn [union_keys]. exact (union_keys_failure ds Hds).
  - change (is_valid (success_record name lat lon PR poa ghi)) with true.
    cbn [union_keys]. exact (union_keys_success ds Hds).
Qed.

(** X4.  After a run over a sheet with the three columns and at least one
    row, the order of the columns of the table, and with it of the export,
    follows the first record: the eight columns in the order Site, Lat,
    Long, GHI, GII, Uplift, Specific Production, CF when the first site
    succeeded; when it failed, the six columns of a failure record,
    followed by GHI and Uplift if a later site succeeded. *)
Theorem column_order_follows_first_record
    {ext : Externals} tilt PR site_df s :
  has_columns site_df ->
  rows site_df <> [] ->
  exists d ds s',
    run_analysis tilt PR site_df s = (inr tt, s') /\
    Forall2 (outcome PR) (iterrows site_df) (d :: ds) /\
    result_df (session s') = Some (DataFrame_of_dicts (d :: ds)) /\
    columns (DataFrame_of_dicts (d :: ds)) =
      if is_valid d then success_columns
      else if existsb is_valid ds then mixed_columns
           else failure_columns.
Proof.
  intros Hcols Hrows.
  destruct (run_analysis_trace tilt PR site_df s Hcols)
    as (results & s' & Hrun & Hses & Hout & _).
  destruct results as [| d ds].
  { inversion Hout as [Hnil |]. unfold iterrows in Hnil.
    symmetry in Hnil. apply map_eq_nil in Hnil. contradiction. }
  exists d, ds, s'. rewrite Hses. cbn [result_df].
  repeat split; try assumption.
  apply columns_of_produced.
  clear Hrun Hses. revert Hout. generalize (iterrows site_df) (d :: ds).
  induction 1 as [| row rec rws recs Hrow _ IH]; constructor; [| exact IH].
  destruct Hrow as [-> | (poa & ghi & ->)].
  - left. unfold failed. eauto.
  - right. do 6 eexists. reflexivity.
Qed.

Lemma column_order_follows_first_record_witness :
  exists d ds s',
    @run_analysis (stub (covered ghi_1500 poa_1700)) 20 (85 # 100)
      sheet_failing_first (start (stub (covered ghi_1500 poa_1700)) O)
    = (inr tt, s') /\
    Forall2 (outcome (85 # 100)) (iterrows sheet_failing_first) (d :: ds) /\
    result_df (session s') = Some (DataFrame_of_dicts (d :: ds)) /\
    columns (DataFrame_of_dicts (d :: ds)) =
      if is_valid d then success_columns
      else if existsb is_valid ds then mixed_columns
           else failure_columns.
Proof.
  apply (@column_order_follows_first_record (stub (covered ghi_1500 poa_1700))
           20 (85 # 100) sheet_failing_first
           (start (stub (covered ghi_1500 poa_1700)) O)).
  - unfold has_columns. simpl. intuition.
  - discriminate.
Defined.

(** The sheet of the witness: its first site fails and its second succeeds,
    and GHI and Uplift come last in the table. *)
Example failing_first_site_moves_columns :
  option_map columns
    (result_df (session (snd
       (@run_analysis (stub (covered ghi_1500 poa_1700)) 20 (85 # 100)
          sheet_failing_first (start (stub (covered ghi_1500 poa_1700)) O)))))
  = Some [ "Site"; "Lat"; "Long"; "GII (kWh/m²)";
           "Specific Production (kWh/kWp)"; "CF (%)";
           "GHI (kWh/m²)"; "Uplift (%)" ].
Proof.
  reflexivity.
Qed.




Lemma index_of_In (k : string) (ks : list string) :
  In k ks -> exists i, index_of k ks = Some i.
Proof.
  induction ks as [| k' ks IH]; [intros [] |].
  intros Hin. cbn [index_of].
  destruct (String.eqb_spec k k') as [-> | Hne]; [now exists 0%nat |].
  destruct Hin as [-> | Hin]; [congruence |].
  destruct (IH Hin) as [i ->]. now exists (S i).
Qed.

Lemma index_of_nth (k : string) (ks : list string) (i : nat) :
  index_of k ks = Some i -> nth_error ks i = Some k.
Proof.
  revert i. induction ks as [| k' ks IH]; intros i; cbn [index_of];
    [discriminate |].
  destruct (String.eqb_spec k k') as [-> | _].
  - now intros [= <-].
  - destruct (index_of k ks) as [j |]; cbn [option_map]; [| discriminate].
    intros [= <-]. now apply IH.
Qed.

Lemma cell_table_row (cols : list string) (d : dict) (k : string) (i : nat) :
  index_of k cols = Some i -> cell i (table_row cols d) = reindex d k.
Proof.
  intros H. apply index_of_nth in H.
  unfold cell, table_row.
  revert i H. induction cols as [| c cols IH]; intros [| i] H; cbn in *;
    try discriminate.
  - now injection H as ->.
  - now apply IH.
Qed.

(** ** The charts, in terms of the records *)

Lemma insert_desc_perm (i : nat) (r : list value) (rs : list (list value)) :
  Permutation (insert_desc i r rs) (r :: rs).
Proof.
  induction rs as [| r' rs IH]; cbn [insert_desc]; [reflexivity |].
  destruct (value_geb (cell i r') (cell i r)); [| reflexivity].
  rewrite IH. apply perm_swap.
Qed.

Lemma sort_desc_perm (i : nat) (rs : list (list value)) :
  Permutation (fold_right (insert_desc i) [] rs) rs.
Proof.
  induction rs as [| r rs IH]; cbn [fold_right]; [reflexivity |].
  rewrite insert_desc_perm. now constructor.
Qed.

Lemma cf_desc_total (i : nat) (r r' : list value) :
  finite_cell i r -> finite_cell i r' ->
  if value_geb (cell i r') (cell i r) then cf_desc i r' r else cf_desc i r r'.
Proof.
  intros [a Ha] [b Hb]. unfold cf_desc. rewrite Ha, Hb.
  cbn [value_geb float_leb].
  destruct (Qle_bool a b) eqn:E.
  - apply Qle_bool_iff in E. now exists b, a.
  - exists a, b. repeat split.
    destruct (Qlt_le_dec b a) as [Hlt | Hle]; [now apply Qlt_le_weak |].
    apply Qle_bool_iff in Hle. congruence.
Qed.

Lemma insert_desc_sorted (i : nat) (r : list value) (rs : list (list value)) :
  finite_cell i r -> Forall (finite_cell i) rs ->
  Sorted (cf_desc i) rs -> Sorted (cf_desc i) (insert_desc i r rs).
Proof.
  intros Hr Hfin Hs.
  induction Hs as [| r' rs Hs IH Hhd]; cbn [insert_desc].
  - repeat constructor.
  - inversion Hfin as [| ? ? Hr' Hfin']; subst.
    pose proof (cf_desc_total i r r' Hr Hr') as Htot.
    destruct (value_geb (cell i r') (cell i r)).
    + constructor; [now apply IH |].
      destruct rs as [| r'' rs]; cbn [insert_desc]; [now constructor |].
      destruct (value_geb (cell i r'') (cell i r)); constructor;
        [now inversion Hhd | exact Htot].
    + constructor; [now constructor | now constructor].
Qed.

Lemma cf_desc_trans (i : nat) : Relations_1.Transitive (cf_desc i).
Proof.
  intros r1 r2 r3 (a & b & Ha & Hb & Hab) (b' & c & Hb' & Hc & Hbc).
  rewrite Hb in Hb'. injection Hb' as <-.
  exists a, c. repeat split; try assumption. now apply Qle_trans with b.
Qed.

Lemma sort_desc_sorted (i : nat) (rs : list (list value)) :
  Forall (finite_cell i) rs ->
  StronglySorted (cf_desc i) (fold_right (insert_desc i) [] rs).
Proof.
  intros Hfin. apply Sorted_StronglySorted; [apply cf_desc_trans |].
  induction Hfin as [| r rs Hr Hfin IH]; cbn [fold_right]; [constructor |].
  apply insert_desc_sorted; [exact Hr | | exact IH].
  eapply Permutation_Forall; [| exact Hfin].
  symmetry. apply sort_desc_perm.
Qed.

Lemma filter_map_comm {A B} (f : A -> B) (p : B -> bool) (l : list A) :
  filter p (map f l) = map f (filter (fun x => p (f x)) l).
Proof.
  induction l as [| x l IH]; cbn [map filter]; [reflexivity |].
  destruct (p (f x)); cbn [map]; now rewrite IH.
Qed.

Lemma StronglySorted_map {A B} (f : A -> B) (R : B -> B -> Prop) (l : list A) :
  StronglySorted R (map f l) ->
  StronglySorted (fun x y => R (f x) (f y)) l.
Proof.
  induction l as [| x l IH]; cbn [map]; intros H; [constructor |].
  inversion H as [| ? ? Hs Hall]; subst.
  constructor; [now apply IH |].
  now rewrite Forall_map in Hall.
Qed.

Lemma valid_produced (d : dict) :
  produced d -> is_valid d = true -> exists q, cf_of d = VFloat (Fin q).
Proof.
  intros [(name & lat & lon & ->)
         | (name & lat & lon & PR & poa & ghi & ->)] Hv.
  - discriminate.
  - eexists. reflexivity.
Qed.

Lemma CF_and_Site_columns (d : dict) (ds : list dict) :
  Forall produced (d :: ds) ->
  exists i,
    index_of "CF (%)" (columns (DataFrame_of_dicts (d :: ds))) = Some i /\
    index_of "Site" (columns (DataFrame_of_dicts (d :: ds))) = Some 0%nat.
Proof.
  intros H. rewrite (columns_of_produced d ds H).
  destruct (is_valid d); [now exists 7%nat |].
  destruct (existsb is_valid ds); now exists 5%nat.
Qed.

Section ChartsOfRecords.
Context {ext : Externals}.

Lemma presentation_of_records (d0 : dict) (ds : list dict) (s : St) :
  Forall produced (d0 :: ds) ->
  let df := DataFrame_of_dicts (d0 :: ds) in
  let valid := filter is_valid (d0 :: ds) in
  exists ranked,
    Permutation ranked valid /\
    StronglySorted ranks_before ranked /\
    presentation df s =
    (inr tt,
     mkSt (world s) (session s)
          (trace s ++ [StDataframe df; StDownload df;
                       Hist (map cf_of valid); Boxplot (map cf_of valid);
                       Barh (inject_Z (Z.of_nat (List.length valid)) * (4 # 10))
                            (map site_of ranked) (map cf_of ranked)])).
Proof.
  intros Hall df valid.
  destruct (CF_and_Site_columns d0 ds Hall) as (i & Hi & Hj).
  fold df in Hi, Hj.
  set (cols := columns df) in *.
  assert (Hrows : valid_rows i df = map (table_row cols) valid).
  { unfold valid_rows, valid.
    change (rows df) with (map (table_row cols) (d0 :: ds)).
    rewrite filter_map_comm. f_equal. apply filter_ext. intros d.
    now rewrite (cell_table_row cols d "CF (%)" i Hi). }
  assert (Hfin : Forall (finite_cell i) (map (table_row cols) valid)).
  { rewrite Forall_map. unfold valid. apply Forall_forall. intros d Hd.
    apply filter_In in Hd. destruct Hd as [Hd Hv].
    rewrite Forall_forall in Hall.
    destruct (valid_produced d (Hall d Hd) Hv) as [q Hq].
    exists q. now rewrite (cell_table_row cols d "CF (%)" i Hi). }
  pose proof (sort_desc_perm i (map (table_row cols) valid)) as Hperm.
  pose proof (sort_desc_sorted i (map (table_row cols) valid) Hfin) as Hsort.
  destruct (Permutation_map_inv _ _ Hperm) as (ranked & Heq & Hp).
  exists ranked. split; [now symmetry |]. split.
  - rewrite Heq in Hsort. apply StronglySorted_map in Hsort.
    eapply StronglySorted_ind with (P := StronglySorted ranks_before);
      [constructor | | exact Hsort].
    intros d l _ IH Hd. constructor; [exact IH |].
    eapply Forall_impl; [| exact Hd].
    intros d'. unfold cf_desc, ranks_before, cf_of.
    now rewrite !(cell_table_row cols _ "CF (%)" i Hi).
  - rewrite (charts_use_valid_rows df i 0 s Hi Hj). cbv zeta.
    assert (Hcf : forall l, map (fun d => cell i (table_row cols d)) l
                            = map cf_of l).
    { intros l. apply map_ext. intros d.
      now rewrite (cell_table_row cols d "CF (%)" i Hi). }
    assert (Hsite : forall l, map (fun d => cell 0 (table_row cols d)) l
                              = map site_of l).
    { intros l. apply map_ext. intros d.
      now rewrite (cell_table_row cols d "Site" 0 Hj). }
    rewrite Hrows, Heq, !map_map, length_map, !Hcf, Hsite.
    reflexivity.
Qed.

End ChartsOfRecords.

Lemma outcome_produced (PR : Q) (row : Series) (d : dict) :
  outcome PR row d -> produced d.
Proof.
  intros [-> | (poa & ghi & ->)].
  - left. unfold failed. eauto.
  - right. do 6 eexists. reflexivity.
Qed.

Lemma outcomes_produced (PR : Q) (rws : list Series) (ds : list dict) :
  Forall2 (outcome PR) rws ds -> Forall produced ds.
Proof.
  induction 1; constructor; eauto using outcome_produced.
Qed.

Section AfterRun.
Context {ext : Externals}.

(** One execution in which the button is pressed, on a sheet that has the
    three columns and at least one row: the run, then the table and the
    charts of its records. *)
Lemma script_after_run f site_df tilt PR s :
  read_excel f = inr site_df ->
  has_columns site_df ->
  rows site_df <> [] ->
  exists results s1 ranked,
    run_analysis tilt PR site_df
      (mkSt (world s) (session s) (trace s ++ [StSuccess])) = (inr tt, s1) /\
    Forall2 (outcome PR) (iterrows site_df) results /\
    session s1 = mkSession true (Some (DataFrame_of_dicts results)) /\
    Permutation ranked (filter is_valid results) /\
    StronglySorted ranks_before ranked /\
    let df := DataFrame_of_dicts results in
    let valid := filter is_valid results in
    script (Some f) true tilt PR s =
    (inr tt,
     mkSt (world s1) (session s1)
          (trace s1 ++ [StDataframe df; StDownload df;
                        Hist (map cf_of valid); Boxplot (map cf_of valid);
                        Barh (inject_Z (Z.of_nat (List.length valid)) * (4 # 10))
                             (map site_of ranked) (map cf_of ranked)])).
Proof.
  intros Hread Hcols Hrows.
  set (s0 := mkSt (world s) (session s) (trace s ++ [StSuccess])).
  destruct (run_analysis_trace tilt PR site_df s0 Hcols)
    as (results & s1 & Hrun & Hses & Hout & _).
  destruct results as [| d0 ds].
  { inversion Hout as [Hnil |]. unfold iterrows in Hnil.
    symmetry in Hnil. apply map_eq_nil in Hnil. contradiction. }
  destruct (presentation_of_records d0 ds s1 (outcomes_produced _ _ _ Hout))
    as (ranked & Hperm & Hsort & Hpres).
  exists (d0 :: ds), s1, ranked.
  split; [exact Hrun |]. split; [exact Hout |]. split; [exact Hses |].
  split; [exact Hperm |]. split; [exact Hsort |].
  cbv zeta. unfold script. unfold bind at 1. unfold bind at 1.
  rewrite Hread. cbn [lift ret]. unfold bind at 1. unfold emit at 1.
  fold s0. rewrite Hrun.
  unfold bind at 1. unfold get_session. rewrite Hses.
  cbn [analysis_done result_df]. rewrite <- Hses. exact Hpres.
Qed.

End AfterRun.

(** X6.  After a run over a sheet with the three columns and at least one
    row, the same execution goes on to the charts; the histogram and the
    boxplot are drawn from the capacity factors of the records that have
    one, in the order of the sheet, and each of these is a finite number. *)
Theorem histogram_of_valid_sites {ext : Externals} f site_df tilt PR s :
  read_excel f = inr site_df ->
  has_columns site_df ->
  rows site_df <> [] ->
  exists results s1 s',
    run_analysis tilt PR site_df
      (mkSt (world s) (session s) (trace s ++ [StSuccess])) = (inr tt, s1) /\
    Forall2 (outcome PR) (iterrows site_df) results /\
    script (Some f) true tilt PR s = (inr tt, s') /\
    let df := DataFrame_of_dicts results in
    let cfs := map cf_of (filter is_valid results) in
    (exists height labels widths,
        trace s' = trace s1 ++ [StDataframe df; StDownload df;
                                Hist cfs; Boxplot cfs;
                                Barh height labels widths]) /\
    Forall (fun v => exists q, v = VFloat (Fin q)) cfs.
Proof.
  intros Hread Hcols Hrows.
  destruct (script_after_run f site_df tilt PR s Hread Hcols Hrows)
    as (results & s1 & ranked & Hrun & Hout & _ & _ & _ & Hscript).
  exists results, s1. eexists.
  split; [exact Hrun |]. split; [exact Hout |]. split; [exact Hscript |].
  cbv zeta. split.
  - do 3 eexists. reflexivity.
  - rewrite Forall_map. apply Forall_forall. intros d Hd.
    apply filter_In in Hd. destruct Hd as [Hd Hv].
    pose proof (outcomes_produced _ _ _ Hout) as Hall.
    rewrite Forall_forall in Hall.
    exact (valid_produced d (Hall d Hd) Hv).
Qed.

Lemma histogram_of_valid_sites_witness :
  exists results s1 s',
    @run_analysis (stub (covered ghi_1500 poa_1700)) 20 (85 # 100) sheet
      (@mkSt (stub (covered ghi_1500 poa_1700)) O (mkSession false None)
             ([] ++ [StSuccess])) = (inr tt, s1) /\
    Forall2 (outcome (85 # 100)) (iterrows sheet) results /\
    @script (stub (covered ghi_1500 poa_1700)) (Some sheet) true 20 (85 # 100)
      (start (stub (covered ghi_1500 poa_1700)) O) = (inr tt, s') /\
    let df := DataFrame_of_dicts results in
    let cfs := map cf_of (filter is_valid results) in
    (exists height labels widths,
        trace s' = trace s1 ++ [StDataframe df; StDownload df;
                                Hist cfs; Boxplot cfs;
                                Barh height labels widths]) /\
    Forall (fun v => exists q, v = VFloat (Fin q)) cfs.
Proof.
  apply (@histogram_of_valid_sites (stub (covered ghi_1500 poa_1700))
           sheet sheet 20 (85 # 100)
           (start (stub (covered ghi_1500 poa_1700)) O)).
  - reflexivity.
  - unfold has_columns. simpl. intuition.
  - discriminate.
Defined.



(** ** More on the figures of a record *)

Lemma rint_floor (x : Q) : (Qfloor x <= rint x <= Qfloor x + 1)%Z.
Proof.
  unfold rint. destruct (_ ?= _); [destruct (Z.even _) | |]; lia.
Qed.

Lemma rint_mono (x y : Q) : x <= y -> (rint x <= rint y)%Z.
Proof.
  intros Hxy.
  pose proof (Qfloor_resp_le x y Hxy) as Hf.
  destruct (Z.eq_dec (Qfloor x) (Qfloor y)) as [E | NE].
  - unfold rint. rewrite E.
    destruct (Qcompare_spec (x - inject_Z (Qfloor y)) (1 # 2)) as [Hx | Hx | Hx];
      destruct (Qcompare_spec (y - inject_Z (Qfloor y)) (1 # 2)) as [Hy | Hy | Hy];
      try destruct (Z.even (Qfloor y)); try lia; exfalso; lra.
  - pose proof (rint_floor x). pose proof (rint_floor y). lia.
Qed.

Lemma rint_close (x y : Q) :
  Qabs (x - y) < 1 -> (Z.abs (rint x - rint y) <= 1)%Z.
Proof.
  intros H. apply Qabs_Qlt_condition in H. destruct H as [H1 H2].
  destruct (rint_near x) as [Hx1 Hx2]. destruct (rint_near y) as [Hy1 Hy2].
  assert (Hup : inject_Z (rint x - rint y) < inject_Z 2).
  { unfold Z.sub. rewrite inject_Z_plus, inject_Z_opp.
    change (inject_Z 2) with 2. lra. }
  assert (Hlo : inject_Z (- 2) < inject_Z (rint x - rint y)).
  { unfold Z.sub. rewrite inject_Z_plus, inject_Z_opp.
    change (inject_Z (- 2)) with (- (2)). lra. }
  rewrite <- Zlt_Qlt in Hup, Hlo. lia.
Qed.

Lemma rint_integer (k : Z) : rint (inject_Z k) = k.
Proof.
  unfold rint. rewrite Qfloor_Z.
  destruct (Qcompare_spec (inject_Z k - inject_Z k) (1 # 2)) as [H | H | H];
    [exfalso; lra | reflexivity | exfalso; lra].
Qed.


Lemma round_Fin (a : Q) (n : nat) : round (Fin a) n = Fin (roundQ a n).
Proof.
  reflexivity.
Qed.

Lemma roundQ_mono (n : nat) (a b : Q) : a <= b -> roundQ a n <= roundQ b n.
Proof.
  intros H. pose proof (pow10_pos n) as Hp. unfold roundQ.
  assert (Hr : (rint (a * pow10 n) <= rint (b * pow10 n))%Z).
  { apply rint_mono. apply Qmult_le_compat_r; lra. }
  rewrite Zle_Qle in Hr.
  apply Qmult_le_compat_r; [exact Hr |].
  apply Qlt_le_weak, Qinv_lt_0_compat, Hp.
Qed.

Lemma roundQ_zero (n : nat) : roundQ 0 n == 0.
Proof.
  pose proof (pow10_pos n) as Hp. unfold roundQ.
  rewrite (rint_comp (0 * pow10 n) (inject_Z 0)) by (change (inject_Z 0) with 0; lra).
  rewrite rint_integer. change (inject_Z 0) with 0. field. lra.
Qed.

Lemma roundQ_fixed (n : nat) (a : Q) : roundQ (roundQ a n) n == roundQ a n.
Proof.
  pose proof (pow10_pos n) as Hp. unfold roundQ at 1.
  rewrite (rint_comp (roundQ a n * pow10 n) (inject_Z (rint (a * pow10 n)))).
  - now rewrite rint_integer.
  - unfold roundQ. field. lra.
Qed.

(** X8.  With the same non-negative performance ratio, a site with at least
    as much annual plane-of-array irradiation as another gets at least its
    specific production and at least its capacity factor; rounding never
    reverses the order. *)
Theorem more_irradiation_never_ranks_lower
    name1 lat1 lon1 name2 lat2 lon2 PR poa1 ghi1 poa2 ghi2 :
  0 <= PR ->
  annual_GII poa1 <= annual_GII poa2 ->
  exists p1 p2 c1 c2,
    dict_get (success_record name1 lat1 lon1 PR poa1 ghi1)
      "Specific Production (kWh/kWp)" = Some (VFloat (Fin p1)) /\
    dict_get (success_record name2 lat2 lon2 PR poa2 ghi2)
      "Specific Production (kWh/kWp)" = Some (VFloat (Fin p2)) /\
    dict_get (success_record name1 lat1 lon1 PR poa1 ghi1) "CF (%)"
      = Some (VFloat (Fin c1)) /\
    dict_get (success_record name2 lat2 lon2 PR poa2 ghi2) "CF (%)"
      = Some (VFloat (Fin c2)) /\
    p1 <= p2 /\ c1 <= c2.
Proof.
  intros HPR Hgii.
  exists (roundQ (specific_production poa1 PR) 1),
         (roundQ (specific_production poa2 PR) 1),
         (roundQ (capacity_factor_pct poa1 PR) 3),
         (roundQ (capacity_factor_pct poa2 PR) 3).
  do 4 (split; [reflexivity |]).
  assert (Hsp : specific_production poa1 PR <= specific_production poa2 PR).
  { unfold specific_production. now apply Qmult_le_compat_r. }
  split; apply roundQ_mono; [exact Hsp |].
  unfold capacity_factor_pct.
  apply Qmult_le_compat_r; [| discriminate].
  apply Qmult_le_compat_r; [exact Hsp | discriminate].
Qed.

Lemma more_irradiation_never_ranks_lower_witness :
  exists p1 p2 c1 c2,
    dict_get (success_record VNone VNone VNone (85 # 100) poa_1700 ghi_1500)
      "Specific Production (kWh/kWp)" = Some (VFloat (Fin p1)) /\
    dict_get (success_record VNone VNone VNone (85 # 100) poa_1700_04 ghi_1500)
      "Specific Production (kWh/kWp)" = Some (VFloat (Fin p2)) /\
    dict_get (success_record VNone VNone VNone (85 # 100) poa_1700 ghi_1500)
      "CF (%)" = Some (VFloat (Fin c1)) /\
    dict_get (success_record VNone VNone VNone (85 # 100) poa_1700_04 ghi_1500)
      "CF (%)" = Some (VFloat (Fin c2)) /\
    p1 <= p2 /\ c1 <= c2.
Proof.
  apply (more_irradiation_never_ranks_lower VNone VNone VNone VNone VNone
           VNone (85 # 100) poa_1700 ghi_1500 poa_1700_04 ghi_1500);
    discriminate.
Defined.

(** X9.  For non-negative hourly plane-of-array values and a performance
    ratio between 0 and 1, the exported specific production is not
    negative and does not exceed the exported annual GII. *)
Theorem production_within_irradiation name lat lon PR poa ghi :
  Forall (fun x => 0 <= x) poa ->
  0 <= PR <= 1 ->
  exists gii p,
    dict_get (success_record name lat lon PR poa ghi) "GII (kWh/m²)"
      = Some (VFloat (Fin gii)) /\
    dict_get (success_record name lat lon PR poa ghi)
      "Specific Production (kWh/kWp)" = Some (VFloat (Fin p)) /\
    0 <= p <= gii.
Proof.
  intros Hpoa [H0 H1].
  exists (roundQ (annual_GII poa) 1), (roundQ (specific_production poa PR) 1).
  do 2 (split; [reflexivity |]).
  pose proof (sum_nonneg poa Hpoa) as Hs.
  assert (Hg : 0 <= annual_GII poa).
  { unfold annual_GII. apply Qle_shift_div_l; lra. }
  assert (Hp0 : 0 <= specific_production poa PR).
  { unfold specific_production. now apply Qmult_le_0_compat. }
  assert (Hp1 : specific_production poa PR <= annual_GII poa).
  { unfold specific_production.
    apply Qle_trans with (annual_GII poa * 1); [| lra].
    apply Qmult_le_compat_nonneg; split; lra. }
  split.
  - rewrite <- (roundQ_zero 1). now apply roundQ_mono.
  - now apply roundQ_mono.
Qed.

Lemma production_within_irradiation_witness :
  exists gii p,
    dict_get (success_record VNone VNone VNone (85 # 100) poa_1700 ghi_1500)
      "GII (kWh/m²)" = Some (VFloat (Fin gii)) /\
    dict_get (success_record VNone VNone VNone (85 # 100) poa_1700 ghi_1500)
      "Specific Production (kWh/kWp)" = Some (VFloat (Fin p)) /\
    0 <= p <= gii.
Proof.
  apply (production_within_irradiation VNone VNone VNone (85 # 100)
           poa_1700 ghi_1500).
  - repeat constructor; discriminate.
  - split; discriminate.
Defined.

Lemma roundQ_near (n : nat) (a : Q) :
  Qabs (roundQ a n - a) <= 1 / (2 * pow10 n).
Proof.
  exact (proj2 (round_nearest n a)).
Qed.

Lemma roundQ_close (a b : Q) :
  Qabs (a * pow10 3 - b * pow10 3) < 1 ->
  Qabs (roundQ a 3 - roundQ b 3) <= 1 # 1000.
Proof.
  intros H. apply rint_close in H.
  unfold roundQ. change (pow10 3) with (inject_Z 1000) in *.
  set (m := rint (a * inject_Z 1000)) in *.
  set (k := rint (b * inject_Z 1000)) in *.
  assert (Hup : inject_Z m - inject_Z k <= 1).
  { change 1 with (inject_Z 1). unfold Qminus.
    rewrite <- inject_Z_opp, <- inject_Z_plus, <- Zle_Qle. lia. }
  assert (Hlo : - (1) <= inject_Z m - inject_Z k).
  { change (- (1)) with (inject_Z (- 1)). unfold Qminus.
    rewrite <- inject_Z_opp, <- inject_Z_plus, <- Zle_Qle. lia. }
  change (inject_Z 1000) with 1000.
  apply Qabs_Qle_condition. split.
  - apply Qle_trans with ((inject_Z m - inject_Z k) / 1000).
    + apply Qle_shift_div_l; [reflexivity | lra].
    + apply Qle_lteq. right. field.
  - apply Qle_trans with ((inject_Z m - inject_Z k) / 1000).
    + apply Qle_lteq. right. field.
    + apply Qle_shift_div_r; [reflexivity | lra].
Qed.

(** X10.  The capacity factor recomputed from the exported specific
    production differs from the exported capacity factor by at most one
    unit of its last place, 0.001. *)
Theorem recomputed_cf_within_one_unit name lat lon PR poa ghi :
  exists p cf again,
    dict_get (success_record name lat lon PR poa ghi)
      "Specific Production (kWh/kWp)" = Some (VFloat (Fin p)) /\
    dict_get (success_record name lat lon PR poa ghi) "CF (%)"
      = Some (VFloat (Fin cf)) /\
    round (Fin p / Fin 8760 * Fin 100)%float 3 = Fin again /\
    Qabs (again - cf) <= 1 # 1000.
Proof.
  set (x := specific_production poa PR).
  exists (roundQ x 1), (roundQ (x / 8760 * 100) 3),
         (roundQ (roundQ x 1 / 8760 * 100) 3).
  do 3 (split; [reflexivity |]).
  apply roundQ_close.
  pose proof (roundQ_near 1 x) as Hn.
  change (pow10 1) with 10 in Hn. change (pow10 3) with 1000.
  apply Qabs_Qle_condition in Hn. destruct Hn as [Hn1 Hn2].
  assert (E : roundQ x 1 / 8760 * 100 * 1000 - x / 8760 * 100 * 1000
              == (roundQ x 1 - x) * (100000 / 8760)) by field.
  rewrite E. apply Qabs_Qlt_condition.
  assert (B1 : - (1 / (2 * 10)) == - (1 # 20)) by reflexivity.
  assert (B2 : 1 / (2 * 10) == 1 # 20) by reflexivity.
  rewrite B1 in Hn1. rewrite B2 in Hn2.
  assert (C : 100000 / 8760 == 2500 # 219) by reflexivity.
  rewrite C. split; lra.
Qed.

(** X11.  When the annual GHI is positive the exported uplift is a finite
    number; it is not negative when the tilted plane receives at least the
    horizontal irradiation, not positive when it receives at most that, and
    never below -100 when the plane-of-array sum is not negative. *)
Theorem uplift_sign name lat lon PR poa ghi :
  0 < annual_GHI ghi ->
  exists u,
    dict_get (success_record name lat lon PR poa ghi) "Uplift (%)"
      = Some (VFloat (Fin u)) /\
    (annual_GHI ghi <= annual_GII poa -> 0 <= u) /\
    (annual_GII poa <= annual_GHI ghi -> u <= 0) /\
    (0 <= annual_GII poa -> - (100) <= u).
Proof.
  intros Hpos.
  destruct (success_record_entries name lat lon PR poa ghi)
    as (_ & _ & _ & _ & _ & Hu & _).
  rewrite uplift_finite in Hu by lra.
  exists (roundQ ((annual_GII poa / annual_GHI ghi - 1) * 100) 1).
  split; [exact Hu |].
  assert (H100 : roundQ (- (100)) 1 == - (100)) by reflexivity.
  repeat split; intros H.
  - rewrite <- (roundQ_zero 1). apply roundQ_mono.
    assert (1 <= annual_GII poa / annual_GHI ghi)
      by (apply Qle_shift_div_l; lra).
    lra.
  - rewrite <- (roundQ_zero 1). apply roundQ_mono.
    assert (annual_GII poa / annual_GHI ghi <= 1)
      by (apply Qle_shift_div_r; lra).
    lra.
  - rewrite <- H100. apply roundQ_mono.
    assert (0 <= annual_GII poa / annual_GHI ghi)
      by (apply Qle_shift_div_l; lra).
    lra.
Qed.

Lemma uplift_sign_witness :
  exists u,
    dict_get (success_record VNone VNone VNone (85 # 100) poa_1700 ghi_1500)
      "Uplift (%)" = Some (VFloat (Fin u)) /\
    (annual_GHI ghi_1500 <= annual_GII poa_1700 -> 0 <= u) /\
    (annual_GII poa_1700 <= annual_GHI ghi_1500 -> u <= 0) /\
    (0 <= annual_GII poa_1700 -> - (100) <= u).
Proof.
  apply (uplift_sign VNone VNone VNone (85 # 100) poa_1700 ghi_1500).
  reflexivity.
Defined.

(** X12.  A retrieval that succeeds with no irradiation at all (empty or
    all-zero series) does not fail the site: the record holds 0 for GHI,
    GII, specific production and capacity factor, [nan] for the uplift, and
    counts among the valid sites of the charts. *)
Theorem site_without_irradiation name lat lon PR poa ghi :
  annual_GII poa == 0 ->
  annual_GHI ghi == 0 ->
  let d := success_record name lat lon PR poa ghi in
  holds d "GHI (kWh/m²)" 0 /\
  holds d "GII (kWh/m²)" 0 /\
  holds d "Specific Production (kWh/kWp)" 0 /\
  holds d "CF (%)" 0 /\
  dict_get d "Uplift (%)" = Some (VFloat NaN) /\
  is_valid d = true.
Proof.
  intros Hi Hg d.
  destruct (success_record_entries name lat lon PR poa ghi)
    as (_ & _ & _ & Hghi & Hgii & Hu & Hp & Hc).
  fold d in Hghi, Hgii, Hu, Hp, Hc.
  split; [apply (holds_round d _ 1 _ 0 0 Hghi Hg); reflexivity |].
  split; [apply (holds_round d _ 1 _ 0 0 Hgii Hi); reflexivity |].
  split.
  { apply (holds_round d _ 1 _ 0 0 Hp); [| reflexivity].
    unfold specific_production. rewrite Hi. lra. }
  split.
  { apply (holds_round d _ 3 _ 0 0 Hc); [| reflexivity].
    unfold capacity_factor_pct, specific_production. rewrite Hi. reflexivity. }
  split; [| reflexivity].
  rewrite Hu. unfold fdiv.
  apply Qeq_bool_iff in Hi, Hg. now rewrite Hi, Hg.
Qed.

Lemma site_without_irradiation_witness :
  let d := success_record (VStr "Ispra") VNone VNone (85 # 100) [] [] in
  holds d "GHI (kWh/m²)" 0 /\
  holds d "GII (kWh/m²)" 0 /\
  holds d "Specific Production (kWh/kWp)" 0 /\
  holds d "CF (%)" 0 /\
  dict_get d "Uplift (%)" = Some (VFloat NaN) /\
  is_valid d = true.
Proof.
  apply (site_without_irradiation (VStr "Ispra") VNone VNone (85 # 100) [] []);
    reflexivity.
Defined.

Lemma round_fixed (x : float) (n : nat) : feq (round (round x n) n) (round x n).
Proof.
  destruct x as [a | sgn |]; cbn [round feq]; [| reflexivity | exact I].
  apply roundQ_fixed.
Qed.

(** X13.  Every figure of a record is a fixed point of the rounding that was
    applied to it: rounding an exported GHI, GII, uplift or specific
    production to one decimal place again, or an exported capacity factor to
    three, changes nothing. *)
Theorem exported_figures_are_rounded name lat lon PR poa ghi :
  let d := success_record name lat lon PR poa ghi in
  forall k n,
    In (k, n) [ ("GHI (kWh/m²)", 1%nat); ("GII (kWh/m²)", 1%nat);
                ("Uplift (%)", 1%nat);
                ("Specific Production (kWh/kWp)", 1%nat);
                ("CF (%)", 3%nat) ] ->
    exists x, dict_get d k = Some (VFloat x) /\ feq (round x n) x.
Proof.
  intros d k n Hin. cbn [In] in Hin.
  destruct Hin as [E | [E | [E | [E | [E | []]]]]]; injection E as <- <-;
    eexists; (split; [reflexivity |]); apply round_fixed.
Qed.

Lemma exported_figures_are_rounded_witness :
  exists x,
    dict_get (success_record VNone VNone VNone (85 # 100) poa_1700 ghi_1500)
      "CF (%)" = Some (VFloat x) /\
    feq (round x 3) x.
Proof.
  apply (exported_figures_are_rounded VNone VNone VNone (85 # 100)
           poa_1700 ghi_1500 "CF (%)" 3%nat).
  cbn [In]. auto 10.
Defined.

(** ** Executions in which the button is not pressed *)

Section Reruns.
Context {ext : Externals}.

(** Showing a table sends nothing and stores nothing, whether it gets to
    the charts or not. *)
Lemma presentation_passive (df : DataFrame) (s : St) :
  world (snd (presentation df s)) = world s /\
  session (snd (presentation df s)) = session s /\
  requests (trace (snd (presentation df s))) = requests (trace s) /\
  errors (trace (snd (presentation df s))) = errors (trace s).
Proof.
  unfold presentation, bind, emit, lift, dropna, column, sort_values_desc.
  cbn [world session trace columns rows].
  destruct (index_of "CF (%)" (columns df)) as [i |];
    cbn [raise ret fst snd world session trace columns rows].
  2:{ rewrite !requests_app, !errors_app. cbn. now rewrite !app_nil_r. }
  destruct (index_of "CF (%)" (columns df)) as [i' |];
    cbn [raise ret fst snd world session trace columns rows].
  2:{ rewrite !requests_app, !errors_app. cbn. now rewrite !app_nil_r. }
  destruct (index_of "Site" (columns df)) as [j |];
    cbn [raise ret fst snd world session trace columns rows].
  2:{ rewrite !requests_app, !errors_app. cbn. now rewrite !app_nil_r. }
  destruct (index_of "CF (%)" (columns df)) as [i'' |];
    cbn [raise ret fst snd world session trace columns rows];
    rewrite !requests_app, !errors_app; cbn; now rewrite !app_nil_r.
Qed.

End Reruns.

Lemma presentation_starts_with_table {ext : Externals} (df : DataFrame) (s : St) :
  exists rest,
    trace (snd (presentation df s)) =
    trace s ++ StDataframe df :: StDownload df :: rest.
Proof.
  destruct (index_of "CF (%)" (columns df)) as [i |] eqn:Hi.
  - destruct (index_of "Site" (columns df)) as [j |] eqn:Hj.
    + rewrite (charts_use_valid_rows df i j s Hi Hj). cbn [snd trace].
      eexists. reflexivity.
    + unfold presentation, bind, emit, lift, dropna, column, sort_values_desc.
      cbn [world session trace columns rows]. rewrite Hi.
      cbn [raise ret fst snd world session trace columns rows]. rewrite Hi.
      cbn [raise ret fst snd world session trace columns rows]. rewrite Hj.
      cbn [raise ret fst snd world session trace columns rows].
      eexists. rewrite <- !app_assoc. cbn [app]. reflexivity.
  - unfold presentation, bind, emit, lift, dropna.
    cbn [world session trace columns rows]. rewrite Hi.
    cbn [raise ret fst snd world session trace columns rows].
    exists []. now rewrite <- app_assoc.
Qed.

Lemma stored_table_passive {ext : Externals} (s : St) :
  let s' := snd (bind get_session
                   (fun ss => match analysis_done ss, result_df ss with
                              | true, Some df => presentation df
                              | _, _ => ret tt
                              end) s) in
  world s' = world s /\
  session s' = session s /\
  requests (trace s') = requests (trace s) /\
  errors (trace s') = errors (trace s) /\
  (forall df,
      session s = mkSession true (Some df) ->
      exists rest, trace s' = trace s ++ StDataframe df :: StDownload df :: rest).
Proof.
  intros s'.
  assert (Hs' : s' = match analysis_done (session s), result_df (session s) with
                     | true, Some df => snd (presentation df s)
                     | _, _ => s
                     end).
  { unfold s', bind, get_session.
    destruct (session s) as [[|] [df0 |]]; reflexivity. }
  clearbody s'. subst s'.
  destruct (session s) as [[|] [df0 |]] eqn:Hses;
    cbn [analysis_done result_df];
    try (do 4 (split; [assumption || reflexivity |]);
         intros df Hdf; discriminate Hdf).
  destruct (presentation_passive df0 s) as (Hw & Hs & Hr & He).
  rewrite Hw, Hs, Hr, He.
  do 4 (split; [assumption || reflexivity |]).
  intros df [= <-]. apply presentation_starts_with_table.
Qed.

(** X14.  An execution in which the button is not pressed sends no request,
    shows no error message of a site, and leaves the session and the
    outside world as they were, with or without an uploaded file and
    whether or not it gets through the charts; when the session holds the
    table of a completed run and the upload, if there is one, can be read,
    the table and the download are shown again. *)
Theorem rerun_without_button_is_passive
    {ext : Externals} uploaded tilt PR s :
  let s' := snd (script uploaded false tilt PR s) in
  world s' = world s /\
  session s' = session s /\
  requests (trace s') = requests (trace s) /\
  errors (trace s') = errors (trace s) /\
  (forall df,
      session s = mkSession true (Some df) ->
      (forall f, uploaded = Some f -> exists site_df, read_excel f = inr site_df) ->
      exists before rest,
        trace s' = before ++ StDataframe df :: StDownload df :: rest).
Proof.
  intros s'.
  assert (Hs' : s' =
    match uploaded with
    | Some f =>
        match read_excel f with
        | inl _ => s
        | inr _ =>
            snd (bind get_session
                   (fun ss => match analysis_done ss, result_df ss with
                              | true, Some df => presentation df
                              | _, _ => ret tt
                              end)
                   (mkSt (world s) (session s) (trace s ++ [StSuccess])))
        end
    | None =>
        snd (bind get_session
               (fun ss => match analysis_done ss, result_df ss with
                          | true, Some df => presentation df
                          | _, _ => ret tt
                          end) s)
    end).
  { unfold s', script. destruct uploaded as [f |].
    - unfold bind at 1. unfold bind at 1.
      destruct (read_excel f) as [e | site_df]; reflexivity.
    - reflexivity. }
  clearbody s'. subst s'.
  destruct uploaded as [f |].
  - destruct (read_excel f) as [e | site_df] eqn:Hread.
    + do 4 (split; [reflexivity |]).
      intros df _ Hok. destruct (Hok f eq_refl) as [site_df H]. congruence.
    + remember (mkSt (world s) (session s) (trace s ++ [StSuccess])) as s0
        eqn:Hs0.
      assert (Hw0 : world s0 = world s) by now subst s0.
      assert (Hse0 : session s0 = session s) by now subst s0.
      assert (Hreq : requests (trace s0) = requests (trace s)).
      { subst s0. cbn [trace]. rewrite requests_app. cbn. apply app_nil_r. }
      assert (Herr : errors (trace s0) = errors (trace s)).
      { subst s0. cbn [trace]. rewrite errors_app. cbn. apply app_nil_r. }
      destruct (stored_table_passive s0) as (Hw & Hs & Hr & He & Hshow).
      cbv zeta in Hw, Hs, Hr, He, Hshow.
      split; [congruence |]. split; [congruence |].
      split; [congruence |]. split; [congruence |].
      intros df Hdf _. rewrite <- Hse0 in Hdf.
      destruct (Hshow df Hdf) as [rest Hrest].
      exists (trace s0), rest. exact Hrest.
  - destruct (stored_table_passive s) as (Hw & Hs & Hr & He & Hshow).
    cbv zeta in Hw, Hs, Hr, He, Hshow.
    do 4 (split; [assumption |]).
    intros df Hdf _. destruct (Hshow df Hdf) as [rest Hrest].
    exists (trace s), rest. exact Hrest.
Qed.

Lemma rerun_without_button_is_passive_witness :
  let E := stub (covered ghi_1500 poa_1700) in
  let df := DataFrame_of_dicts
              [failure_record (VStr "Nowhere") (VFloat (Fin 95)) (VFloat (Fin 0))] in
  let s := @mkSt E O (mkSession true (Some df)) [] in
  exists before rest,
    trace (snd (@script E None false 20 (85 # 100) s)) =
    before ++ StDataframe df :: StDownload df :: rest.
Proof.
  intros E df s.
  apply (proj2 (proj2 (proj2 (proj2
           (@rerun_without_button_is_passive E None 20 (85 # 100) s)))) df).
  - reflexivity.
  - intros f Hf. discriminate Hf.
Defined.

(** What is left of an execution that a missing column ends. *)
Lemma script_missing_column {ext : Externals} f site_df tilt PR s :
  read_excel f = inr site_df ->
  ~ has_columns site_df ->
  rows site_df <> [] ->
  exists k,
    In k ["name"; "Lat"; "Long"] /\
    script (Some f) true tilt PR s =
    (inl (KeyError k),
     mkSt (world s) (mkSession false (result_df (session s)))
          ((trace s ++ [StSuccess]) ++ [StProgress 0])).
Proof.
  intros Hread Hcols Hrows.
  destruct site_df as [cols [| r rest]]; [now destruct Hrows |].
  set (s0 := mkSt (world s) (mkSession false (result_df (session s)))
               ((trace s ++ [StSuccess]) ++ [StProgress 0])).
  destruct (site_body_missing tilt PR (len (mkDataFrame cols (r :: rest)))
              [] 0%nat (cols, r) s0 Hcols) as (k & Hk & _ & Hbody).
  exists k. split; [exact Hk |].
  unfold script. unfold bind at 1. unfold bind at 1.
  rewrite Hread. cbn [lift ret].
  unfold bind at 1. unfold emit at 1.
  unfold run_analysis. unfold bind at 1. unfold get_session.
  unfold bind at 1. unfold set_session at 1.
  unfold bind at 1. unfold emit at 1.
  cbn [world session trace]. fold s0.
  unfold bind at 1. unfold iterrows. cbn [rows columns map site_loop].
  unfold bind at 1. now rewrite Hbody.
Qed.

(** X15.  A run that a missing column ends takes the previous results off
    the screen: it leaves the session marked as not done, with the old
    table still stored, so that a later execution without the button,
    whether the upload is still in place, replaced or removed, shows
    neither table nor charts: at most the message of the upload. *)
Theorem aborted_run_hides_previous_results
    {ext : Externals} f site_df tilt PR s :
  read_excel f = inr site_df ->
  ~ has_columns site_df ->
  rows site_df <> [] ->
  exists e s',
    script (Some f) true tilt PR s = (inl e, s') /\
    analysis_done (session s') = false /\
    result_df (session s') = result_df (session s) /\
    script None false tilt PR s' = (inr tt, s') /\
    forall uploaded tilt' PR',
      session (snd (script uploaded false tilt' PR' s')) = session s' /\
      trace (snd (script uploaded false tilt' PR' s')) =
        trace s' ++ match uploaded with
                    | Some f' => match read_excel f' with
                                 | inr _ => [StSuccess]
                                 | inl _ => []
                                 end
                    | None => []
                    end.
Proof.
  intros Hread Hcols Hrows.
  destruct (script_missing_column f site_df tilt PR s Hread Hcols Hrows)
    as (k & _ & Hscript).
  do 2 eexists. split; [exact Hscript |].
  cbn [session analysis_done result_df].
  do 2 (split; [reflexivity |]).
  split.
  { unfold script. unfold bind at 1. cbn [ret].
    unfold bind, get_session. reflexivity. }
  intros uploaded tilt' PR'. unfold script.
  destruct uploaded as [f' |].
  - unfold bind at 1 3. unfold bind at 1 2.
    destruct (read_excel f') as [e' | df']; cbn [lift raise ret snd].
    + split; [reflexivity |]. cbn [trace]. now rewrite app_nil_r.
    + unfold bind, emit, get_session, ret. cbn. split; reflexivity.
  - unfold bind, get_session, ret. cbn. split; [reflexivity |].
    now rewrite app_nil_r.
Qed.

Lemma aborted_run_hides_previous_results_witness :
  let E := stub (covered ghi_1500 poa_1700) in
  let df := DataFrame_of_dicts
              [failure_record (VStr "Nowhere") (VFloat (Fin 95)) (VFloat (Fin 0))] in
  let s := @mkSt E O (mkSession true (Some df)) [] in
  exists e s',
    @script E (Some sheet_without_long) true 20 (85 # 100) s = (inl e, s') /\
    analysis_done (session s') = false /\
    result_df (session s') = Some df /\
    @script E None false 20 (85 # 100) s' = (inr tt, s') /\
    forall uploaded tilt' PR',
      session (snd (@script E uploaded false tilt' PR' s')) = session s' /\
      trace (snd (@script E uploaded false tilt' PR' s')) =
        trace s' ++ match uploaded with
                    | Some f' => match @read_excel E f' with
                                 | inr _ => [StSuccess]
                                 | inl _ => []
                                 end
                    | None => []
                    end.
Proof.
  intros E df s.
  apply (@aborted_run_hides_previous_results E sheet_without_long
           sheet_without_long 20 (85 # 100) s).
  - reflexivity.
  - intros (_ & _ & H). cbn in H. intuition discriminate.
  - discriminate.
Defined.

(** X16.  On a row that has the three columns, the record that a turn
    appends has a capacity factor exactly when the retrieval and the
    geometry of the site went through: the sites of the charts are the
    sites that succeeded. *)
Theorem valid_iff_succeeded
    {ext : Externals} tilt PR total results idx row name lat lon s :
  series_lookup (fst row) (snd row) "name" = Some name ->
  series_lookup (fst row) (snd row) "Lat" = Some lat ->
  series_lookup (fst row) (snd row) "Long" = Some lon ->
  (idx < total)%nat ->
  exists d s',
    site_body tilt PR total results idx row s = (inr (results ++ [d]), s') /\
    (is_valid d = true <->
     exists d0 s1, estimate tilt PR name lat lon s = (inr d0, s1)).
Proof.
  intros Hn Hla Hlo Hidx.
  rewrite (site_body_turn _ _ _ _ _ _ _ _ _ _ Hn Hla Hlo Hidx).
  unfold turn.
  destruct (estimate tilt PR name lat lon s) as [[e | d] s1] eqn:He.
  - do 2 eexists. split; [reflexivity |]. split.
    + discriminate.
    + intros (d0 & s2 & H). discriminate H.
  - destruct (estimate_returns _ _ _ _ _ _ _ _ He) as (poa & ghi & ->).
    do 2 eexists. split; [reflexivity |]. split.
    + intros _. eauto.
    + intros _. reflexivity.
Qed.

Lemma valid_iff_succeeded_witness :
  exists d s',
    @site_body (stub (covered ghi_1500 poa_1700)) 20 (85 # 100) 1 [] 0
      (columns sheet, nowhere) (start (stub (covered ghi_1500 poa_1700)) O)
    = (inr ([] ++ [d]), s') /\
    (is_valid d = true <->
     exists d0 s1,
       @estimate (stub (covered ghi_1500 poa_1700)) 20 (85 # 100)
         (VStr "Nowhere") (VFloat (Fin 95)) (VFloat (Fin 0))
         (start (stub (covered ghi_1500 poa_1700)) O) = (inr d0, s1)).
Proof.
  apply (@valid_iff_succeeded (stub (covered ghi_1500 poa_1700)) 20 (85 # 100)
           1%nat [] 0%nat (columns sheet, nowhere)
           (VStr "Nowhere") (VFloat (Fin 95)) (VFloat (Fin 0))
           (start (stub (covered ghi_1500 poa_1700)) O));
    try reflexivity.
  lia.
Defined.

(** ** Runs do not see each other *)

Section Isolation.
Context {ext : Externals}.

Lemma estimate_world tilt PR name lat lon s t :
  world s = world t ->
  fst (estimate tilt PR name lat lon s) = fst (estimate tilt PR name lat lon t) /\
  world (snd (estimate tilt PR name lat lon s)) =
  world (snd (estimate tilt PR name lat lon t)).
Proof.
  intros Hw. split.
  - unfold estimate, bind, pvgis_tmy. rewrite Hw.
    destruct (get_pvgis_tmy lat lon (world t)) as [[e | tmy] w]; cbn;
      [reflexivity |].
    destruct (get_solarposition tmy lat lon) as [e | sp]; cbn; [reflexivity |].
    destruct (get_total_irradiance tilt 180 tmy sp) as [e | poa]; reflexivity.
  - rewrite !estimate_state. cbn [world]. now rewrite Hw.
Qed.

(** A turn of the loop, written out. *)
Lemma site_body_unfold tilt PR total results idx row s :
  site_body tilt PR total results idx row s =
  match series_lookup (fst row) (snd row) "name" with
  | None => (inl (KeyError "name"), s)
  | Some name =>
  match series_lookup (fst row) (snd row) "Lat" with
  | None => (inl (KeyError "Lat"), s)
  | Some lat =>
  match series_lookup (fst row) (snd row) "Long" with
  | None => (inl (KeyError "Long"), s)
  | Some lon =>
      let (r, s1) := estimate tilt PR name lat lon s in
      let (res, s2) :=
        match r with
        | inr d => (results ++ [d], s1)
        | inl e =>
            (results ++ [failure_record name lat lon],
             mkSt (world s1) (session s1)
                  (trace s1 ++ [StError (failure_message name e)]))
        end in
      if Qle_bool 0 (fraction idx total) && Qle_bool (fraction idx total) 1
      then (inr res,
            mkSt (world s2) (session s2)
                 (trace s2 ++ [StProgress (fraction idx total)]))
      else (inl (Exception "Progress Value has invalid value [0.0, 1.0]"), s2)
  end end end.
Proof.
  unfold site_body, getitem, bind, try_except, progress, emit, ret, raise.
  destruct (series_lookup (fst row) (snd row) "name") as [name |];
    [| reflexivity].
  destruct (series_lookup (fst row) (snd row) "Lat") as [lat |];
    [| reflexivity].
  destruct (series_lookup (fst row) (snd row) "Long") as [lon |];
    [| reflexivity].
  destruct (estimate tilt PR name lat lon s) as [[e | d] s1];
    cbn [world session trace];
    destruct (Qle_bool 0 (fraction idx total)
              && Qle_bool (fraction idx total) 1); reflexivity.
Qed.

Lemma site_body_world tilt PR total results idx row s t :
  world s = world t ->
  fst (site_body tilt PR total results idx row s) =
  fst (site_body tilt PR total results idx row t) /\
  world (snd (site_body tilt PR total results idx row s)) =
  world (snd (site_body tilt PR total results idx row t)).
Proof.
  intros Hw. rewrite !site_body_unfold.
  destruct (series_lookup (fst row) (snd row) "name") as [name |];
    [| now split].
  destruct (series_lookup (fst row) (snd row) "Lat") as [lat |];
    [| now split].
  destruct (series_lookup (fst row) (snd row) "Long") as [lon |];
    [| now split].
  destruct (estimate_world tilt PR name lat lon s t Hw) as [Hf Hs].
  destruct (estimate tilt PR name lat lon s) as [rs s1].
  destruct (estimate tilt PR name lat lon t) as [rt t1].
  cbn [fst snd] in Hf, Hs. subst rt.
  destruct rs as [e | d];
    destruct (Qle_bool 0 (fraction idx total)
              && Qle_bool (fraction idx total) 1);
    cbn [fst snd world]; now split.
Qed.

Lemma site_loop_world tilt PR total rws :
  forall results idx s t,
    world s = world t ->
    fst (site_loop tilt PR total results idx rws s) =
    fst (site_loop tilt PR total results idx rws t) /\
    world (snd (site_loop tilt PR total results idx rws s)) =
    world (snd (site_loop tilt PR total results idx rws t)).
Proof.
  induction rws as [| row rws IH]; intros results idx s t Hw.
  - now split.
  - cbn [site_loop]. unfold bind.
    destruct (site_body_world tilt PR total results idx row s t Hw) as [Hf Hs].
    destruct (site_body tilt PR total results idx row s) as [rs s1].
    destruct (site_body tilt PR total results idx row t) as [rt t1].
    cbn [fst snd] in Hf, Hs. subst rt.
    destruct rs as [e | res]; [now split |].
    now apply IH.
Qed.

(** A run, written out. *)
Lemma run_analysis_unfold tilt PR site_df s :
  run_analysis tilt PR site_df s =
  let (r, s1) :=
    site_loop tilt PR (len site_df) [] 0 (iterrows site_df)
      (mkSt (world s) (mkSession false (result_df (session s)))
            (trace s ++ [StProgress 0])) in
  match r with
  | inl e => (inl e, s1)
  | inr results =>
      (inr tt,
       mkSt (world s1) (mkSession true (Some (DataFrame_of_dicts results)))
            ((trace s1 ++ [StSuccess])
               ++ [StDataframe (DataFrame_of_dicts results)]))
  end.
Proof.
  unfold run_analysis, bind, get_session, set_session, emit.
  cbn [world session trace].
  destruct (site_loop tilt PR (len site_df) [] 0 (iterrows site_df) _)
    as [[e | results] s1]; reflexivity.
Qed.

End Isolation.

(** X17.  What a run computes depends on the sheet, the parameters and the
    outside world only: started from two states with the same outside
    world, whatever their sessions and whatever has been shown before, it
    ends in the same way, leaves the same outside world, and, when it
    completes, stores the same table. *)
Theorem run_ignores_previous_session
    {ext : Externals} tilt PR site_df s t :
  world s = world t ->
  let rs := run_analysis tilt PR site_df s in
  let rt := run_analysis tilt PR site_df t in
  fst rs = fst rt /\
  world (snd rs) = world (snd rt) /\
  (fst rs = inr tt -> session (snd rs) = session (snd rt)).
Proof.
  intros Hw rs rt. unfold rs, rt. rewrite !run_analysis_unfold.
  set (s0 := mkSt (world s) _ _). set (t0 := mkSt (world t) _ _).
  destruct (site_loop_world tilt PR (len site_df) (iterrows site_df)
              [] 0%nat s0 t0 Hw) as [Hf Hs].
  destruct (site_loop tilt PR (len site_df) [] 0 (iterrows site_df) s0)
    as [r1 s1].
  destruct (site_loop tilt PR (len site_df) [] 0 (iterrows site_df) t0)
    as [r2 t1].
  cbn [fst snd] in Hf, Hs. subst r2.
  destruct r1 as [e | results]; cbn [fst snd world session].
  - split; [reflexivity |]. split; [exact Hs | discriminate].
  - split; [reflexivity |]. split; [exact Hs | reflexivity].
Qed.

Lemma run_ignores_previous_session_witness :
  let E := stub (covered ghi_1500 poa_1700) in
  let s := start E O in
  let t := @mkSt E O (mkSession true (Some empty_sheet)) [StError "old"] in
  fst (@run_analysis E 20 (85 # 100) sheet s) =
  fst (@run_analysis E 20 (85 # 100) sheet t) /\
  world (snd (@run_analysis E 20 (85 # 100) sheet s)) =
  world (snd (@run_analysis E 20 (85 # 100) sheet t)) /\
  (fst (@run_analysis E 20 (85 # 100) sheet s) = inr tt ->
   session (snd (@run_analysis E 20 (85 # 100) sheet s)) =
   session (snd (@run_analysis E 20 (85 # 100) sheet t))).
Proof.
  intros E s t.
  apply (@run_ignores_previous_session E 20 (85 # 100) sheet s t).
  reflexivity.
Defined.

(** ** The table of a run, row by row *)





